(** * ad-hoc-miner: the lexeme canonicalizer, the tokenizer adapter, the
    literal codepoint profiler and the mining worker

    A shallow embedding of
    - [sensibility/miner/parse_worker.py] ([parse_js], [in_uplus_notation],
      [clean_literal], [clean_template], [find_literals],
      [count_codepoints_in_literals], [insert_count], [main]) and
    - [sensibility/language/javascript/__init__.py] ([JavaScript.tokenize],
      [JavaScript.check_syntax], [SafeSourceFile], [synthetic_file],
      [_tokenize], [from_esprima_format], [StringifyLexeme]),
    followed by the properties of the specification that were checked
    against it. *)

From Stdlib Require Import ZArith NArith Lia.
From Stdlib.Strings Require Import Ascii String Byte.
From stdpp Require Import base option list gmap strings sorting.

Set Warnings "-register-all".
Open Scope list_scope.

(** ** Python values *)

(** A Python [str] is a sequence of Unicode code points; a [bytes] object a
    sequence of bytes. *)
Abbreviation pystr := (list N).
Abbreviation pybytes := (list byte).

(** The code points of an ASCII literal of the source. *)
Fixpoint py (s : string) : pystr :=
  match s with
  | EmptyString => []
  | String a rest => N_of_ascii a :: py rest
  end.
Arguments py s%_string.

(** The Python values that reach the functions below. [PyFile fd] is an
    instance of [io.IOBase]: a stream, named by its descriptor.  [PyObject]
    stands for any value of another type. *)
Inductive pyvalue :=
| PyNone
| PyNotImplemented
| PyBool (b : bool)
| PyInt (z : Z)
| PyStr (s : pystr)
| PyBytes (b : pybytes)
| PyFile (fd : nat)
| PyObject (id : N).

(** The exceptions the two modules raise or let through. *)
Inductive exn :=
| KeyboardInterrupt
| ParseError                        (* parse_worker.ParseError *)
| ErrorReturnCode (status : Z)      (* sh.ErrorReturnCode_<status> *)
| SignalException (signal : Z)      (* sh.SignalException_<signal> *)
| CalledProcessError (status : Z)   (* subprocess.CalledProcessError *)
| JSONDecodeError
| UnicodeError
| KeyError (key : pystr)
| TypeError (msg : pystr)
| AttributeError (attr : pystr)
| AssertionError
| RecursionError
| DictSliceError                    (* a slice as the key of a dict: TypeError up to
                                       Python 3.11, KeyError from 3.12 on *)
| ValueError (v : pyvalue)
| StoreError (code : N).            (* raised by the database or by redis *)

(** A call either returns or raises. *)
Inductive result (A : Type) :=
| Ret (a : A)
| Raise (e : exn).
Arguments Ret {A} a.
Arguments Raise {A} e.

#[global] Instance result_ret : MRet result := @Ret.
#[global] Instance result_bind : MBind result := fun A B f m =>
  match m with
  | Ret a => f a
  | Raise e => Raise e
  end.

Definition returns {A} (r : result A) : bool :=
  match r with Ret _ => true | Raise _ => false end.

(** ** [str] operations *)

(** [a == b] *)
Fixpoint str_eqb (a b : pystr) : bool :=
  match a, b with
  | [], [] => true
  | x :: a', y :: b' => (x =? y)%N && str_eqb a' b'
  | _, _ => false
  end.

(** [text.startswith(prefix)] *)
Fixpoint startswith (text prefix : pystr) {struct prefix} : bool :=
  match prefix, text with
  | [], _ => true
  | p :: ps, t :: ts => (p =? t)%N && startswith ts ps
  | _ :: _, [] => false
  end.

(** [text.endswith(suffix)] *)
Definition endswith (text suffix : pystr) : bool :=
  startswith (reverse text) (reverse suffix).

(** An index of a slice, clamped the way Python does: a negative index
    counts from the end. *)
Definition slice_index (len i : Z) : Z :=
  if (i <? 0)%Z then Z.max (len + i) 0 else Z.min i len.

(** [l[start:stop]] *)
Definition slice {A} (l : list A) (start stop : Z) : list A :=
  let len := Z.of_nat (length l) in
  let lo := slice_index len start in
  let hi := slice_index len stop in
  take (Z.to_nat (hi - lo)) (drop (Z.to_nat lo) l).

(** An association list, read from the front. *)
Fixpoint assoc {V} (key : pystr) (table : list (pystr * V)) : option V :=
  match table with
  | [] => None
  | (k, v) :: rest => if str_eqb key k then Some v else assoc key rest
  end.

(** ** Decoded JSON *)

(** The values [json.loads] builds; an object keeps one entry per key. *)
Inductive json :=
| JNull
| JBool (b : bool)
| JNum (z : Z)
| JStr (s : pystr)
| JArr (items : list json)
| JObj (fields : list (pystr * json)).

(** [type(x).__name__], as the messages of [TypeError] give it. *)
Definition type_name (x : json) : pystr :=
  match x with
  | JNull => py "NoneType"
  | JBool _ => py "bool"
  | JNum _ => py "int"
  | JStr _ => py "str"
  | JArr _ => py "list"
  | JObj _ => py "dict"
  end.

(** [container[key]] for a [str] key: a [dict] has the key or raises
    [KeyError]; a [str] and a [list] take integers only; nothing else can
    be indexed at all. *)
Definition subscript (container : json) (key : pystr) : result json :=
  match container with
  | JObj fields =>
      match assoc key fields with
      | Some v => Ret v
      | None => Raise (KeyError key)
      end
  | JStr _ => Raise (TypeError (py "string indices must be integers, not 'str'"))
  | JArr _ => Raise (TypeError (py "list indices must be integers or slices, not str"))
  | other =>
      Raise (TypeError (py "'" ++ type_name other ++ py "' object is not subscriptable"))
  end.

(** [for x in container]: a list gives its items, a [dict] its keys, a
    [str] its characters; nothing else can be iterated over. *)
Definition iterate (container : json) : result (list json) :=
  match container with
  | JArr items => Ret items
  | JObj fields => Ret (map (fun kv => JStr (fst kv)) fields)
  | JStr s => Ret (map (fun c => JStr [c]) s)
  | other => Raise (TypeError (py "'" ++ type_name other ++ py "' object is not iterable"))
  end.

(** [subprocess.CompletedProcess]: the exit status of a finished process
    and what it wrote to its standard output. *)
Record CompletedProcess := { returncode : Z; stdout : pybytes }.

(** ** What the two modules take from outside

    The runtime and the external programs, whose code is not part of the
    repository. *)
Class Externals := {
  (** The attributes every instance inherits from [object] ([__class__],
      [__eq__], [__doc__], ...), which [getattr] finds as well: [None] for a
      name [object] does not define, otherwise what the attribute does when
      it is called with the text of a lexeme. *)
  object_attr : pystr -> option (pystr -> result pyvalue);
  (** [str.encode('utf-8')] and [bytes.decode('utf-8')] *)
  encode_utf8 : pystr -> result pybytes;
  decode_utf8 : pybytes -> result pystr;
  (** [json.loads] *)
  json_loads : pystr -> result json;
  (** The external parser [esprima-interface]: from its arguments and its
      standard input, an exit status and a standard output. *)
  esprima : list pystr -> pybytes -> CompletedProcess;
  (** [node parse-js <file>], from the contents of the file. *)
  node_parse_js : pybytes -> CompletedProcess
}.

(** ** [str.format] with the presentation type [X] *)

(** The digit [d < 16] as an uppercase hexadecimal character. *)
Definition hex_digit (d : N) : N :=
  if (d <? 10)%N then (48 + d)%N else (55 + d)%N.

Fixpoint hex_digits (fuel : nat) (n : N) (acc : pystr) : pystr :=
  match fuel with
  | O => acc
  | S fuel' =>
      let acc' := hex_digit (n mod 16) :: acc in
      if (n <? 16)%N then acc' else hex_digits fuel' (n / 16) acc'
  end.

(** [format(n, 'X')]: a number of [log2 n + 1] bits has no more hexadecimal
    digits than that. *)
Definition format_X (n : N) : pystr :=
  hex_digits (S (N.to_nat (N.log2 n))) n [].

(** Right alignment in a field of [width] characters, the default for
    numbers. *)
Definition pad_left (fill : N) (width : nat) (s : pystr) : pystr :=
  replicate (width - length s) fill ++ s.

Definition SPACE : N := 32.
Definition ZERO : N := 48.

(** ["{:5X}".format(n)]: no fill character is given, so the field is filled
    with spaces. *)
Definition format_5X (n : N) : pystr := pad_left SPACE 5 (format_X n).

(** ["{:04X}".format(n)]: the [0] flag fills with zeros. *)
Definition format_04X (n : N) : pystr := pad_left ZERO 4 (format_X n).

(** The value a string of hexadecimal digits denotes, [None] when a
    character is not one of [0-9A-F]. *)
Definition hex_value_of (c : N) : option N :=
  if ((48 <=? c) && (c <=? 57))%N then Some (c - 48)%N
  else if ((65 <=? c) && (c <=? 70))%N then Some (c - 55)%N
  else None.

Fixpoint parse_hex (acc : N) (s : pystr) : option N :=
  match s with
  | [] => Some acc
  | c :: s' =>
      match hex_value_of c with
      | Some d => parse_hex (16 * acc + d)%N s'
      | None => None
      end
  end.

(** ** parse_worker.py: the literal codepoint profiler *)

(** [in_uplus_notation(character)], on [ord(character)]. *)
Definition in_uplus_notation (ordinal : N) : pystr :=
  if (0xFFFF <? ordinal)%N
  then py "U+" ++ format_5X ordinal
  else py "U+" ++ format_04X ordinal.

(** [clean_literal(literal)] *)
Definition clean_literal (literal : pystr) : result pystr :=
  if (length literal <? 2)%nat then Raise AssertionError
  else Ret (slice literal 1 (-1)).

(** [clean_template(literal)] *)
Definition clean_template (literal : pystr) : pystr :=
  let end_trim := if endswith literal (py "${") then 2%Z else 1%Z in
  slice literal 1 (- end_trim).

(** What the specification says of [clean_template]: the first character is
    removed, then the last one, or the last two when the text ends with the
    interpolation-open marker. *)
Definition remove_first (s : pystr) : pystr := drop 1 s.
Definition remove_last (k : nat) (s : pystr) : pystr := take (length s - k) s.

Definition strip_template_spec (text : pystr) : pystr :=
  if endswith text (py "${")
  then remove_last 2 (remove_first text)
  else remove_last 1 (remove_first text).

(** What the specification says of the label: [U+] and the hexadecimal
    value, padded with zeros to [width] digits. *)
Definition zero_padded (width : nat) (digits : pystr) : pystr :=
  replicate (width - length digits) ZERO ++ digits.

Definition codepoint_label_spec (cp : N) : pystr :=
  py "U+" ++ zero_padded (if (cp <? 0x10000)%N then 4 else 5) (format_X cp).


(** ** javascript/__init__.py: the lexeme canonicalizer *)

(** A lexeme: the name of its kind and its text. *)
Record Lexeme := { name : pystr; value : pystr }.

Definition symbol (s : string) : result pyvalue := Ret (PyStr (py s)).
Arguments symbol s%_string.

(** The methods of [StringifyLexeme], one per kind of token. *)
Definition StringifyLexeme_Boolean (text : pystr) : result pyvalue :=
  Ret (PyStr text).

Definition StringifyLexeme_Identifier (text : pystr) : result pyvalue :=
  symbol "<IDENTIFIER>".

Definition StringifyLexeme_Keyword (text : pystr) : result pyvalue :=
  Ret (PyStr text).

Definition StringifyLexeme_Null (text : pystr) : result pyvalue :=
  symbol "null".

Definition StringifyLexeme_Numeric (text : pystr) : result pyvalue :=
  symbol "<NUMBER>".

Definition StringifyLexeme_Punctuator (text : pystr) : result pyvalue :=
  Ret (PyStr text).

Definition StringifyLexeme_String (text : pystr) : result pyvalue :=
  symbol "<STRING>".

Definition StringifyLexeme_RegularExpression (text : pystr) : result pyvalue :=
  symbol "<REGEXP>".

Definition StringifyLexeme_Template (text : pystr) : result pyvalue :=
  if (length text <? 2)%nat then Raise AssertionError
  else
    let unhandled := Raise (TypeError (py "Unhandled template literal: " ++ text)) in
    if startswith text (py "`") then
      if endswith text (py "`") then symbol "<STANDALONE-TEMPLATE>"
      else if endswith text (py "${") then symbol "<TEMPLATE-HEAD>"
      else unhandled
    else if startswith text (py "}") then
      if endswith text (py "`") then symbol "<TEMPLATE-TAIL>"
      else if endswith text (py "${") then symbol "<TEMPLATE-MIDDLE>"
      else unhandled
    else unhandled.

(** The shapes of template fragment the canonicalizer names. *)
Definition template_shaped (text : pystr) : bool :=
  (2 <=? length text)%nat &&
  (startswith text (py "`") || startswith text (py "}")) &&
  (endswith text (py "`") || endswith text (py "${")).

(** The methods the class body defines for the kinds of token, by name. *)
Definition token_methods : list (pystr * (pystr -> result pyvalue)) :=
  [ (py "Boolean", StringifyLexeme_Boolean);
    (py "Identifier", StringifyLexeme_Identifier);
    (py "Keyword", StringifyLexeme_Keyword);
    (py "Null", StringifyLexeme_Null);
    (py "Numeric", StringifyLexeme_Numeric);
    (py "Punctuator", StringifyLexeme_Punctuator);
    (py "String", StringifyLexeme_String);
    (py "RegularExpression", StringifyLexeme_RegularExpression);
    (py "Template", StringifyLexeme_Template) ].

(** The alphabet of the specification: the nine kinds. *)
Definition alphabet : list pystr := map fst token_methods.

Definition in_alphabet (kind : pystr) : bool :=
  existsb (str_eqb kind) alphabet.

(** What [__call__] is applied to: a lexeme, or, when the instance is called
    through its own [__call__] attribute, the text of a lexeme. *)
Inductive argument :=
| ArgLexeme (token : Lexeme)
| ArgStr (text : pystr).

(** [token.name] and [token.value]: a [str] has neither attribute. *)
Definition arg_name (token : argument) : result pystr :=
  match token with
  | ArgLexeme t => Ret (name t)
  | ArgStr _ => Raise (AttributeError (py "name"))
  end.

Definition arg_value (token : argument) : result pystr :=
  match token with
  | ArgLexeme t => Ret (value t)
  | ArgStr _ => Raise (AttributeError (py "value"))
  end.

(** Python's default limit on the depth of the call stack. *)
Definition recursion_limit : nat := 1000.

Section Canonicalizer.

Context `{Externals}.

(** [getattr(self, name)]: the methods of the class body, [__call__]
    among them, then the inherited attributes. *)
Definition getattr_self (self_call : pystr -> result pyvalue) (attr : pystr)
  : result (pystr -> result pyvalue) :=
  match assoc attr token_methods with
  | Some method => Ret method
  | None =>
      if str_eqb attr (py "__call__") then Ret self_call
      else match object_attr attr with
           | Some inherited => Ret inherited
           | None => Raise (AttributeError attr)
           end
  end.

(** The body of [StringifyLexeme.__call__]. *)
Definition call_body (self_call : pystr -> result pyvalue) (token : argument)
  : result pyvalue :=
  match n ← arg_name token; getattr_self self_call n with
  | Ret fn => text ← arg_value token; fn text
  | Raise (AttributeError _) =>
      n ← arg_name token;
      Raise (TypeError (py "Unhandled type: " ++ n))
  | Raise e => Raise e
  end.

Fixpoint StringifyLexeme_call (depth : nat) (token : argument) : result pyvalue :=
  match depth with
  | O => Raise RecursionError
  | S depth' =>
      call_body (fun text => StringifyLexeme_call depth' (ArgStr text)) token
  end.

(** [stringify_lexeme(token)] *)
Definition stringify_lexeme (token : Lexeme) : result pyvalue :=
  StringifyLexeme_call recursion_limit (ArgLexeme token).

End Canonicalizer.

(** ** javascript/__init__.py: the tokenizer adapter *)

Record Position := { line : json; column : json }.
Record Token := {
  tok_name : json;
  tok_value : json;
  tok_start : Position;
  tok_end : Position
}.

(** [from_esprima_format(token)] *)
Definition from_esprima_format (token : json) : result Token :=
  loc ← subscript token (py "loc");
  type ← subscript token (py "type");
  val ← subscript token (py "value");
  start ← subscript loc (py "start");
  start_line ← subscript start (py "line");
  start ← subscript loc (py "start");
  start_column ← subscript start (py "column");
  end_ ← subscript loc (py "end");
  end_line ← subscript end_ (py "line");
  end_ ← subscript loc (py "end");
  end_column ← subscript end_ (py "column");
  Ret {| tok_name := type; tok_value := val;
         tok_start := {| line := start_line; column := start_column |};
         tok_end := {| line := end_line; column := end_column |} |}.

Fixpoint mapM {A B} (f : A -> result B) (l : list A) : result (list B) :=
  match l with
  | [] => Ret []
  | x :: rest => y ← f x; ys ← mapM f rest; Ret (y :: ys)
  end.

(** A file object: its contents, the position of the next read, and whether
    it has been closed. *)
Record file := { data : pybytes; offset : nat; closed : bool }.

(** The part of the operating system the adapter acts on: the file objects
    of the process, by descriptor, and the subprocesses run so far, each
    with its arguments. *)
Record os := {
  files : gmap nat file;
  next_fd : nat;
  spawned : list (list pystr)
}.

(** A computation on the operating system that returns or raises. *)
Definition io (A : Type) : Type := os -> result A * os.

#[global] Instance io_ret : MRet io := fun A a w => (Ret a, w).
#[global] Instance io_bind : MBind io := fun A B f m w =>
  match m w with
  | (Ret a, w') => f a w'
  | (Raise e, w') => (Raise e, w')
  end.

Definition lift {A} (r : result A) : io A := fun w => (r, w).

(** [file_obj.close()]: closing twice is allowed. *)
Definition close (fd : nat) : io unit := fun w =>
  (Ret (),
   {| files := alter (fun f => {| data := data f; offset := offset f; closed := true |}) fd (files w);
      next_fd := next_fd w;
      spawned := spawned w |}).

(** [SafeSourceFile]: the source and the two fields set by [__enter__]. *)
Record SafeSourceFile := {
  source : pyvalue;
  _owned : option nat;
  _foreign : option nat
}.

(** [SafeSourceFile.__init__] *)
Definition SafeSourceFile_init (src : pyvalue) : SafeSourceFile :=
  {| source := src; _owned := None; _foreign := None |}.

(** [SafeSourceFile.__exit__] *)
Definition SafeSourceFile_exit (self : SafeSourceFile) : io unit :=
  match _owned self with
  | Some fd => close fd
  | None =>
      match _foreign self with
      | Some _ => mret ()
      | None => lift (Raise AssertionError)
      end
  end.

(** Whether the file object of a descriptor is closed, if there is one. *)
Definition is_closed (w : os) (fd : nat) : option bool :=
  closed <$> files w !! fd.

(** The sources [SafeSourceFile] takes: a [str], a [bytes], a stream. *)
Definition accepted_source (src : pyvalue) : bool :=
  match src with
  | PyStr _ | PyBytes _ | PyFile _ => true
  | _ => false
  end.

Section Adapter.

Context `{Externals}.

(** [synthetic_file(source)], for a [str] or a [bytes] source: a fresh
    temporary file with the contents, rewound. *)
Definition synthetic_file (src : pyvalue) : io nat := fun w =>
  let fd := next_fd w in
  let created := {| files := <[fd := {| data := []; offset := 0; closed := false |}]> (files w);
                    next_fd := S fd;
                    spawned := spawned w |} in
  let contents :=
    match src with
    | PyStr s => encode_utf8 s
    | PyBytes b => Ret b
    | _ => Raise (TypeError (py "a bytes-like object is required"))
    end in
  match contents with
  | Ret b =>
      (Ret fd,
       {| files := <[fd := {| data := b; offset := 0; closed := false |}]> (files created);
          next_fd := next_fd created;
          spawned := spawned created |})
  | Raise e => (Raise e, created)
  end.

(** [SafeSourceFile.__enter__]: the file object handed to the body, and
    the context manager with its fields set. *)
Definition SafeSourceFile_enter (self : SafeSourceFile) : io (SafeSourceFile * nat) :=
  match source self with
  | PyStr _ | PyBytes _ =>
      fd ← synthetic_file (source self);
      mret ({| source := source self; _owned := Some fd; _foreign := _foreign self |}, fd)
  | PyFile fd =>
      mret ({| source := source self; _owned := _owned self; _foreign := Some fd |}, fd)
  | other => lift (Raise (ValueError other))
  end.

(** [with SafeSourceFile(source) as source_file: body]: when [__enter__]
    raises the body does not run; otherwise [__exit__] runs however the
    body ends, and an exception of the body is raised again after it. *)
Definition with_SafeSourceFile {A} (src : pyvalue) (body : nat -> io A) : io A :=
  fun w =>
    match SafeSourceFile_enter (SafeSourceFile_init src) w with
    | (Raise e, w1) => (Raise e, w1)
    | (Ret (self, source_file), w1) =>
        let '(outcome, w2) := body source_file w1 in
        match SafeSourceFile_exit self w2 with
        | (Ret _, w3) => (outcome, w3)
        | (Raise e, w3) => (Raise e, w3)
        end
    end.

(** [subprocess.run(args, check=check, stdin=file_obj, stdout=PIPE)]: the
    child reads the file from its position to its end; a closed file
    object has no descriptor to hand over. *)
Definition subprocess_run (args : list pystr) (check : bool) (stdin : nat)
  : io CompletedProcess := fun w =>
  match files w !! stdin with
  | Some f =>
      if closed f then (Raise (ValueError (PyStr (py "I/O operation on closed file"))), w)
      else
        let status := esprima args (drop (offset f) (data f)) in
        let w' := {| files := <[stdin := {| data := data f; offset := length (data f); closed := false |}]> (files w);
                     next_fd := next_fd w;
                     spawned := spawned w ++ [args] |} in
        if check && negb (returncode status =? 0)%Z
        then (Raise (CalledProcessError (returncode status)), w')
        else (Ret status, w')
  | None => (Raise (ValueError (PyStr (py "I/O operation on closed file"))), w)
  end.

(** [_tokenize(file_obj)] *)
Definition _tokenize (file_obj : nat) : io CompletedProcess :=
  subprocess_run [] true file_obj.

(** [JavaScript.tokenize(source)] *)
Definition tokenize (src : pyvalue) : io (list Token) :=
  status ← with_SafeSourceFile src _tokenize;
  lift (text ← decode_utf8 (stdout status);
        decoded ← json_loads text;
        toks ← iterate decoded;
        mapM from_esprima_format toks).

(** [JavaScript.check_syntax(source)] *)
Definition check_syntax (src : pyvalue) : io bool :=
  status ← with_SafeSourceFile src (subprocess_run [py "--check-syntax"] false);
  mret (returncode status =? 0)%Z.

End Adapter.

(** ** parse_worker.py: the tokenizer and the profiler *)

(** A [collections.Counter] of labels, and the sorted set of the aggregate
    store: a label that is absent counts zero. *)
Abbreviation counter := (gmap pystr Z).

Definition count_of (c : counter) (label : pystr) : Z := default 0%Z (c !! label).

(** [counter[label] += 1] *)
Definition increment (label : pystr) (c : counter) : counter :=
  <[label := (count_of c label + 1)%Z]> c.

(** [x == s] for a [str] literal [s]. *)
Definition is_str (x : json) (s : pystr) : bool :=
  match x with
  | JStr t => str_eqb t s
  | _ => false
  end.

(** A number in decimal digits, as the messages of [TypeError] give it. *)
Fixpoint decimal_digits (fuel : nat) (n : N) (acc : pystr) : pystr :=
  match fuel with
  | O => acc
  | S fuel' =>
      let acc' := (48 + n mod 10)%N :: acc in
      if (n <? 10)%N then acc' else decimal_digits fuel' (n / 10) acc'
  end.

Definition decimal (n : nat) : pystr := decimal_digits (S n) (N.of_nat n) [].

(** [len(x)]: a [str], a [list] and a [dict] have a length. *)
Definition len (x : json) : result nat :=
  match x with
  | JStr s => Ret (length s)
  | JArr items => Ret (length items)
  | JObj fields => Ret (length fields)
  | other => Raise (TypeError (py "object of type '" ++ type_name other ++ py "' has no len()"))
  end.

(** [x[start:stop]]: a [str] and a [list] can be sliced; a slice is no key
    of a [dict]. *)
Definition slice_of (x : json) (start stop : Z) : result json :=
  match x with
  | JStr s => Ret (JStr (slice s start stop))
  | JArr items => Ret (JArr (slice items start stop))
  | JObj _ => Raise DictSliceError
  | other =>
      Raise (TypeError (py "'" ++ type_name other ++ py "' object is not subscriptable"))
  end.

(** [ord(x)]: the code point of a [str] of one character. *)
Definition ord (x : json) : result N :=
  match x with
  | JStr [c] => Ret c
  | JStr s =>
      Raise (TypeError (py "ord() expected a character, but string of length "
                        ++ decimal (length s) ++ py " found"))
  | other =>
      Raise (TypeError (py "ord() expected string of length 1, but "
                        ++ type_name other ++ py " found"))
  end.

(** [clean_literal(literal)] on the value of a token, whatever it is: on a
    [str] it is [clean_literal] above; a [list] is sliced as well. *)
Definition clean_literal_value (literal : json) : result json :=
  n ← len literal;
  if (n <? 2)%nat then Raise AssertionError
  else slice_of literal 1 (-1).

(** [clean_template(literal)] on the value of a token, whatever it is:
    only a [str] has [endswith]. *)
Definition clean_template_value (literal : json) : result json :=
  match literal with
  | JStr s => Ret (JStr (clean_template s))
  | _ => Raise (AttributeError (py "endswith"))
  end.

(** The literals one token yields in [find_literals]. *)
Definition literals_of (token : json) : result (list json) :=
  type ← subscript token (py "type");
  strings ← (if is_str type (py "String")
             then v ← subscript token (py "value");
                  literal ← clean_literal_value v;
                  Ret [literal]
             else Ret []);
  type ← subscript token (py "type");
  templates ← (if is_str type (py "Template")
               then v ← subscript token (py "value");
                    literal ← clean_template_value v;
                    Ret [literal]
               else Ret []);
  Ret (strings ++ templates).

(** [find_literals(tokens)], run to its end. *)
Definition find_literals (tokens : json) : result (list json) :=
  toks ← iterate tokens;
  found ← mapM literals_of toks;
  Ret (concat found).

(** A loop that an exception ends. *)
Fixpoint foldM {A B} (f : A -> B -> result A) (a : A) (l : list B) : result A :=
  match l with
  | [] => Ret a
  | x :: rest => a' ← f a x; foldM f a' rest
  end.

(** [counter[in_uplus_notation(scalar_value)] += 1] *)
Definition count_scalar (c : counter) (scalar_value : json) : result counter :=
  ordinal ← ord scalar_value;
  Ret (increment (in_uplus_notation ordinal) c).

(** [for scalar_value in literal: ...] *)
Definition count_literal (c : counter) (literal : json) : result counter :=
  items ← iterate literal;
  foldM count_scalar c items.

(** [count_codepoints_in_literals(tokens)]: [find_literals] is a
    generator, so the literals of a token are counted before the next
    token is looked at. *)
Definition count_codepoints_in_literals (tokens : json) : result counter :=
  toks ← iterate tokens;
  foldM (fun c token => found ← literals_of token; foldM count_literal c found) ∅ toks.

(** [sh]: a command that ends with a status other than zero raises
    [ErrorReturnCode_<status>], one ended by a signal raises
    [SignalException_<signal>]. *)
Definition sh_result (status : CompletedProcess) : result pybytes :=
  if (returncode status =? 0)%Z then Ret (stdout status)
  else if (0 <? returncode status)%Z then Raise (ErrorReturnCode (returncode status))
  else Raise (SignalException (- returncode status)).

Section Parser.

Context `{Externals}.

(** What [parse_js] writes to its temporary file: a [str] is encoded,
    and [write] takes nothing but bytes. *)
Definition written (src : pyvalue) : result pybytes :=
  match src with
  | PyStr s => encode_utf8 s
  | PyBytes b => Ret b
  | _ => Raise (TypeError (py "a bytes-like object is required"))
  end.

(** [parse_js(source)]: the temporary file lives for the call only. *)
Definition parse_js (src : pyvalue) : result (json * json) :=
  contents ← written src;
  result_string ← match sh_result (node_parse_js contents) with
                  | Raise (ErrorReturnCode 1) => Raise ParseError
                  | outcome => outcome
                  end;
  text ← decode_utf8 result_string;
  decoded ← json_loads text;
  tokens ← subscript decoded (py "tokens");
  ast ← subscript decoded (py "ast");
  Ret (tokens, ast).

End Parser.

(** ** parse_worker.py: the mining worker *)

(** What happens while one call of [main] runs: nothing, a
    [KeyboardInterrupt] delivered before the call has had its effect, one
    delivered after it, or a failure of the callee (a store that is
    unavailable). *)
Inductive signal :=
| Quiet
| Interrupt
| InterruptLate
| Fail (code : N).

(** The effects of the worker on the queues and the stores, in order. *)
Inductive event :=
| Dequeued (item : pybytes)
| StoredParse (file_hash : pystr)
| MergedCounts (counts : counter)
| RecordedFailure (file_hash : pystr)
| Published (file_hash : pystr)
| Acknowledged (file_hash : pystr).

(** The queues, the corpus store, the aggregate store, the effects so far
    and the signals to come, the next one first. *)
Record world := {
  queue : list pybytes;
  acknowledged : list pystr;
  errors : list pystr;
  sources : gmap pystr pyvalue;
  parsed : gmap pystr (json * json);
  failures : gset pystr;
  char_count : counter;
  history : list event;
  signals : list signal
}.

Definition set_signals (s : list signal) (w : world) : world :=
  {| queue := queue w; acknowledged := acknowledged w; errors := errors w;
     sources := sources w; parsed := parsed w; failures := failures w;
     char_count := char_count w; history := history w; signals := s |}.

Definition record (e : event) (w : world) : world :=
  {| queue := queue w; acknowledged := acknowledged w; errors := errors w;
     sources := sources w; parsed := parsed w; failures := failures w;
     char_count := char_count w; history := history w ++ [e]; signals := signals w |}.

Definition set_queue (q : list pybytes) (w : world) : world :=
  {| queue := q; acknowledged := acknowledged w; errors := errors w;
     sources := sources w; parsed := parsed w; failures := failures w;
     char_count := char_count w; history := history w; signals := signals w |}.

Definition set_acknowledged (a : list pystr) (w : world) : world :=
  {| queue := queue w; acknowledged := a; errors := errors w;
     sources := sources w; parsed := parsed w; failures := failures w;
     char_count := char_count w; history := history w; signals := signals w |}.

Definition set_errors (e : list pystr) (w : world) : world :=
  {| queue := queue w; acknowledged := acknowledged w; errors := e;
     sources := sources w; parsed := parsed w; failures := failures w;
     char_count := char_count w; history := history w; signals := signals w |}.

Definition set_parsed (p : gmap pystr (json * json)) (w : world) : world :=
  {| queue := queue w; acknowledged := acknowledged w; errors := errors w;
     sources := sources w; parsed := p; failures := failures w;
     char_count := char_count w; history := history w; signals := signals w |}.

Definition set_failures (f : gset pystr) (w : world) : world :=
  {| queue := queue w; acknowledged := acknowledged w; errors := errors w;
     sources := sources w; parsed := parsed w; failures := f;
     char_count := char_count w; history := history w; signals := signals w |}.

Definition set_char_count (c : counter) (w : world) : world :=
  {| queue := queue w; acknowledged := acknowledged w; errors := errors w;
     sources := sources w; parsed := parsed w; failures := failures w;
     char_count := c; history := history w; signals := signals w |}.

(** A computation of the worker: it returns or raises, and changes the
    world. *)
Definition M (A : Type) : Type := world -> result A * world.

#[global] Instance M_ret : MRet M := fun A a w => (Ret a, w).
#[global] Instance M_bind : MBind M := fun A B f m w =>
  match m w with
  | (Ret a, w') => f a w'
  | (Raise e, w') => (Raise e, w')
  end.

Definition pure {A} (r : result A) : M A := fun w => (r, w).

(** One call made by [main], under the next signal. *)
Definition call {A} (op : M A) : M A := fun w =>
  match signals w with
  | [] => op w
  | Quiet :: rest => op (set_signals rest w)
  | Interrupt :: rest => (Raise KeyboardInterrupt, set_signals rest w)
  | InterruptLate :: rest =>
      let '(_, w') := op (set_signals rest w) in (Raise KeyboardInterrupt, w')
  | Fail code :: rest => (Raise (StoreError code), set_signals rest w)
  end.

(** Modelled from the spec: the queue transport ([rqueue.WorkQueue] and
    [rqueue.Queue] are not among the sources).  A blocking pop takes the
    next item of the primary queue, [None] standing for a pop that waits on
    an empty queue; an acknowledgment marks the item as done; the error
    queue supports a push only. *)
Definition worker_get : M (option pybytes) :=
  call (fun w =>
          match queue w with
          | [] => (Ret None, w)
          | item :: rest => (Ret (Some item), record (Dequeued item) (set_queue rest w))
          end).

Definition worker_acknowledge (file_hash : pystr) : M unit :=
  call (fun w =>
          (Ret (), record (Acknowledged file_hash)
                          (set_acknowledged (acknowledged w ++ [file_hash]) w))).

Definition aborted_push (file_hash : pystr) : M unit :=
  call (fun w =>
          (Ret (), record (Published file_hash) (set_errors (errors w ++ [file_hash]) w))).

(** Modelled from the spec: the corpus store ([miner_db.Database] is not
    among the sources), keyed by content identifier.  Recording a result
    or a failure for an identifier a second time leaves the store as it
    is. *)
Definition db_get_source (file_hash : pystr) : M pyvalue :=
  call (fun w =>
          match sources w !! file_hash with
          | Some src => (Ret src, w)
          | None => (Raise (KeyError file_hash), w)
          end).

Definition db_add_parsed_source (file_hash : pystr) (tokens ast : json) : M unit :=
  call (fun w =>
          (Ret (), record (StoredParse file_hash)
                          (set_parsed (<[file_hash := (tokens, ast)]> (parsed w)) w))).

Definition db_set_failure (file_hash : pystr) : M unit :=
  call (fun w =>
          (Ret (), record (RecordedFailure file_hash)
                          (set_failures ({[file_hash]} ∪ failures w) w))).

(** [counter.most_common()]: the entries by falling count (entries of the
    same count in the order of the map, where Python keeps the order of
    insertion). *)
Definition no_less (x y : pystr * Z) : Prop := (y.2 <= x.2)%Z.

#[global] Instance no_less_dec : RelDecision no_less :=
  fun x y => decide (y.2 <= x.2)%Z.

Definition most_common (counts : counter) : list (pystr * Z) :=
  merge_sort no_less (map_to_list counts).

(** [ZINCRBY key amount label]: a label that is absent counts zero. *)
Definition zincrby (agg : counter) (command : pystr * Z) : counter :=
  <[command.1 := (count_of agg command.1 + command.2)%Z]> agg.

(** [pipe.execute()]: the queued commands, in their order. *)
Definition execute (commands : list (pystr * Z)) (agg : counter) : counter :=
  foldl zincrby agg commands.

(** [insert_count(counter)]: one [zincrby] is queued in the pipeline for
    each entry of the counter, and they take effect together when the
    pipeline is executed. *)
Definition insert_count (counts : counter) : M unit :=
  call (fun w =>
          let pipe := most_common counts in
          (Ret (), record (MergedCounts counts)
                          (set_char_count (execute pipe (char_count w)) w))).

(** A call of the [logging] module. *)
Definition logger : M unit := call (mret ()).

(** An effect that neither takes an item nor acknowledges one. *)
Definition silent (e : event) : Prop :=
  match e with
  | Dequeued _ | Acknowledged _ => False
  | _ => True
  end.

(** A call that has one effect: either it raised and the effect did not
    take place, or the effect took place and the call returned, or was
    interrupted after it. *)
Definition one_effect (e : event) (w w' : world) (r : result unit) : Prop :=
  (returns r = false /\ r <> Raise ParseError /\ history w' = history w) \/
  ((r = Ret () \/ r = Raise KeyboardInterrupt) /\ history w' = history w ++ [e]).

(** The effects of the [try] statement on one item: none that
    acknowledges, or an acknowledgment as the last effect, right after the
    parse was stored and the counts merged, after the failure was recorded,
    or after the item was published to the error queue. *)
Definition handled (file_hash : pystr) (evs : list event) : Prop :=
  Forall silent evs \/
  (exists counts, evs = [StoredParse file_hash; MergedCounts counts; Acknowledged file_hash]) \/
  evs = [RecordedFailure file_hash; Acknowledged file_hash] \/
  (exists body, Forall silent body /\
                evs = body ++ [Published file_hash; Acknowledged file_hash]).

(** What the handlers and the [else] clause may add to the effects of the
    [try] body, by the way the body ended: after a body that returned,
    nothing but the acknowledgment; after a [ParseError], the failure and
    then the acknowledgment; after a [KeyboardInterrupt], the publication
    and never an acknowledgment; after anything else, the publication and
    then the acknowledgment.  A handler that is itself cut short leaves a
    prefix of these. *)
Definition after_attempt_quiet (file_hash : pystr) (outcome : result unit) : list event :=
  match outcome with
  | Ret _ => [Acknowledged file_hash]
  | Raise KeyboardInterrupt => [Published file_hash]
  | Raise ParseError => [RecordedFailure file_hash; Acknowledged file_hash]
  | Raise _ => [Published file_hash; Acknowledged file_hash]
  end.

Definition after_attempt (file_hash : pystr) (outcome : result unit) (evs : list event)
  : Prop :=
  evs `prefix_of` after_attempt_quiet file_hash outcome.

(** How one pass through the loop ends. *)
Inductive control :=
| Continue
| Break
| Wait.

(** How [main] ends, when no exception leaves it: by [break], or it waits
    for ever on the empty queue. *)
Inductive ending :=
| Broke
| Waiting
| Unfinished.

Section Worker.

Context `{Externals}.

(** The body of the [try] statement of [main]. *)
Definition attempt (file_hash : pystr) : M unit :=
  source_code ← db_get_source file_hash;
  '(tokens, ast) ← call (pure (parse_js source_code));
  _ ← db_add_parsed_source file_hash tokens ast;
  counts ← call (pure (count_codepoints_in_literals tokens));
  insert_count counts.

(** The [try] statement with its handlers and its [else] clause. *)
Definition process (file_hash : pystr) : M control := fun w =>
  match attempt file_hash w with
  | (Raise KeyboardInterrupt, w') =>
      (_ ← aborted_push file_hash;
       _ ← logger;
       mret Break) w'
  | (Raise ParseError, w') =>
      (_ ← db_set_failure file_hash;
       _ ← worker_acknowledge file_hash;
       _ ← logger;
       mret Continue) w'
  | (Raise _, w') =>
      (_ ← aborted_push file_hash;
       _ ← worker_acknowledge file_hash;
       _ ← logger;
       mret Continue) w'
  | (Ret _, w') =>
      (_ ← worker_acknowledge file_hash;
       _ ← logger;
       mret Continue) w'
  end.

(** One pass through the body of [while True]. *)
Definition iteration : M control := fun w =>
  match worker_get w with
  | (Raise KeyboardInterrupt, w') =>
      (_ ← logger; mret Break) w'
  | (Raise e, w') => (Raise e, w')
  | (Ret None, w') => (Ret Wait, w')
  | (Ret (Some item), w') =>
      (file_hash ← call (pure (decode_utf8 item));
       _ ← logger;
       process file_hash) w'
  end.

(** The loop of [main], for at most [fuel] passes. *)
Fixpoint main_loop (fuel : nat) : M ending :=
  match fuel with
  | O => mret Unfinished
  | S fuel' =>
      c ← iteration;
      match c with
      | Continue => main_loop fuel'
      | Break => mret Broke
      | Wait => mret Waiting
      end
  end.

(** [main()]: a pass that continues has taken an item from the queue, so
    one pass more than the queue is long ends the loop. *)
Definition main : M ending := fun w =>
  (_ ← logger; main_loop (S (length (queue w)))) w.

(** The effects of one pass through the loop, as the handlers allow
    them: none; an item taken and not acknowledged; an item acknowledged
    right after its parse was stored and its counts merged; one
    acknowledged right after its failure was recorded; one acknowledged
    right after it was published to the error queue. *)
Inductive pass : list event -> Prop :=
| pass_idle :
    pass []
| pass_unacknowledged item body :
    Forall silent body ->
    pass (Dequeued item :: body)
| pass_success item file_hash counts :
    decode_utf8 item = Ret file_hash ->
    pass [Dequeued item; StoredParse file_hash; MergedCounts counts;
          Acknowledged file_hash]
| pass_syntax_error item file_hash :
    decode_utf8 item = Ret file_hash ->
    pass [Dequeued item; RecordedFailure file_hash; Acknowledged file_hash]
| pass_fault item file_hash body :
    decode_utf8 item = Ret file_hash ->
    Forall silent body ->
    pass (Dequeued item :: body ++ [Published file_hash; Acknowledged file_hash]).

End Worker.

(** ** A stand-in for the outside, to run the definitions on

    [object] answers for [__eq__] and [__format__] only; the codec is that
    of ASCII text; the decoder of JSON gives the payload of a file without
    tokens; the parsers accept the empty file, report a syntax error
    (status 1) for a file that starts with [%], and crash (status 2) on
    anything else. *)
Definition sample_status (contents : pybytes) : CompletedProcess :=
  match contents with
  | [] => {| returncode := 0; stdout := [] |}
  | "%"%byte :: _ => {| returncode := 1; stdout := [] |}
  | _ => {| returncode := 2; stdout := [] |}
  end.

Definition sample : Externals := {|
  object_attr := fun attr =>
    if str_eqb attr (py "__eq__") then Some (fun _ => Ret PyNotImplemented)
    else if str_eqb attr (py "__format__")
    then Some (fun spec => match spec with
                           | [] => Ret (PyStr (py "<StringifyLexeme object>"))
                           | _ => Raise (TypeError (py "unsupported format string"))
                           end)
    else None;
  encode_utf8 := fun s => Ret (omap Byte.of_N s);
  decode_utf8 := fun b => Ret (map Byte.to_N b);
  json_loads := fun _ => Ret (JObj [(py "tokens", JArr []); (py "ast", JObj [])]);
  esprima := fun _ contents => sample_status contents;
  node_parse_js := sample_status
|}.

(** An exception that is neither an interrupt nor a syntax error: the
    kind the bare [except] of [main] is there for. *)
Definition ordinary (e : exn) : Prop :=
  e <> KeyboardInterrupt /\ e <> ParseError.

(** A computation that leaves the primary queue as it is. *)
Definition keeps_queue {A} (m : M A) : Prop :=
  forall w, queue (m w).2 = queue w.

(** ** Two runs of the worker that are cut short

    One item, [ab], waits in the queue; its source, [%$], is not
    JavaScript.  In the first run a [KeyboardInterrupt] is delivered while
    the handler of [ParseError] calls [db.set_failure]: the six calls
    before it ([logger.info], [worker.get], [decode], [logger.debug],
    [db.get_source], [parse_js]) go through.  In the second it is
    delivered at [logger.debug], between the pop and the [try]
    statement. *)
Definition waiting_item : pybytes := ["a"%byte; "b"%byte].

Definition one_item (schedule : list signal) : world := {|
  queue := [waiting_item];
  acknowledged := [];
  errors := [];
  sources := {[ py "ab" := PyBytes ["%"%byte; "$"%byte] ]};
  parsed := ∅;
  failures := ∅;
  char_count := ∅;
  history := [];
  signals := schedule
|}.

Definition interrupted_in_handler : world :=
  one_item [Quiet; Quiet; Quiet; Quiet; Quiet; Quiet; Interrupt].

Definition interrupted_before_try : world :=
  one_item [Quiet; Quiet; Quiet; Interrupt].

Definition interrupted_in_try : world :=
  one_item [Quiet; Quiet; Quiet; Quiet; Interrupt].

(** An operating system with one open stream, of descriptor 0. *)
Definition one_stream : os := {|
  files := {[ 0%nat := {| data := []; offset := 0; closed := false |} ]};
  next_fd := 1;
  spawned := []
|}.

(** ** Notions the further properties are stated with *)

(** Reading a label back: the hexadecimal digits after [U+]. *)
Definition parse_label (label : pystr) : option N :=
  if startswith label (py "U+") then parse_hex 0 (drop 2 label) else None.

(** How often a code point occurs in a list of literals. *)
Definition occurrences (cp : N) (literals : list pystr) : Z :=
  Z.of_nat (length (filter (fun c => c = cp) (concat literals))).

(** The code points a literal is counted for: [ord] of each of its items. *)
Definition scalars (literal : json) : result (list N) :=
  items ← iterate literal;
  mapM ord items.

(** A token that is an object whose [type] is neither [String] nor
    [Template]. *)
Definition other_kind (token : json) : bool :=
  match subscript token (py "type") with
  | Ret type => negb (is_str type (py "String")) && negb (is_str type (py "Template"))
  | Raise _ => false
  end.

(** The symbols that stand for a whole kind of token. *)
Definition fixed_symbols : list pystr :=
  [ py "null"; py "<IDENTIFIER>"; py "<NUMBER>"; py "<STRING>"; py "<REGEXP>";
    py "<STANDALONE-TEMPLATE>"; py "<TEMPLATE-HEAD>"; py "<TEMPLATE-TAIL>";
    py "<TEMPLATE-MIDDLE>" ].

(** The kinds whose text is the symbol. *)
Definition verbatim_kind (kind : pystr) : bool :=
  str_eqb kind (py "Boolean") || str_eqb kind (py "Keyword") ||
  str_eqb kind (py "Punctuator").

(** What a list of [zincrby] commands adds under a label. *)
Fixpoint amount_for (label : pystr) (commands : list (pystr * Z)) : Z :=
  match commands with
  | [] => 0
  | command :: rest =>
      ((if decide (command.1 = label) then command.2 else 0) + amount_for label rest)%Z
  end.

(** What [main] leaves of an item: still queued, acknowledged, or in the
    error queue. *)
Definition accounted_for (w : world) (item : pybytes) (file_hash : pystr) : Prop :=
  item ∈ queue w \/ file_hash ∈ acknowledged w \/ file_hash ∈ errors w.

(** ** javascript/__init__.py: summaries and vocabularies

    [Token] and [SourceSummary] are declared in modules that are not among
    the sources: of a token, the functions below use its lines, its
    location, and its name and value, which are taken as they come. *)
Record SourceSummary := { sloc : nat; n_tokens : nat }.

Section Tokens.

Context `{Externals}.
Context {T L : Type}.

(** [token.lines], [token.location], and [token.name] with [token.value]. *)
Variable lines_of : T -> list N.
Variable location_of : T -> L.
Variable lexeme_of : T -> Lexeme.

(** [JavaScript.summarize_tokens(source)] *)
Definition summarize_tokens (tokens : list T) : SourceSummary :=
  let unique_lines : gset N := list_to_set (concat (map lines_of tokens)) in
  {| sloc := size unique_lines; n_tokens := length tokens |}.

(** [JavaScript.vocabularize_tokens(tokens)], a generator: the pairs it
    yields, and the exception that ends it, if one does. *)
Fixpoint vocabularize_tokens (tokens : list T) : list (L * pyvalue) * option exn :=
  match tokens with
  | [] => ([], None)
  | token :: rest =>
      match stringify_lexeme (lexeme_of token) with
      | Ret entry =>
          let '(yielded, raised) := vocabularize_tokens rest in
          ((location_of token, entry) :: yielded, raised)
      | Raise e => ([], Some e)
      end
  end.

End Tokens.

(** A token the canonicalizer has a symbol for: of a kind of the
    alphabet, and well shaped when it is a template. *)
Definition canonical (token : Lexeme) : bool :=
  in_alphabet (name token) &&
  (negb (str_eqb (name token) (py "Template")) || template_shaped (value token)).

(** ** A second stand-in

    Its decoder takes ASCII only; its parsers always exit with status 0,
    printing nothing for the empty file; its JSON decoder gives the empty
    list for the empty text, and otherwise a payload whose only token is a
    string literal of a single character. *)
Definition ascii_decode (b : pybytes) : result pystr :=
  if forallb (fun c => (Byte.to_N c <? 128)%N) b then Ret (map Byte.to_N b)
  else Raise UnicodeError.

Definition second_status (contents : pybytes) : CompletedProcess :=
  match contents with
  | [] => {| returncode := 0; stdout := [] |}
  | _ => {| returncode := 0; stdout := ["x"%byte] |}
  end.

Definition short_literal : json :=
  JObj [(py "type", JStr (py "String")); (py "value", JStr (py "x"))].

Definition second_sample : Externals := {|
  object_attr := fun _ => None;
  encode_utf8 := fun s => Ret (omap Byte.of_N s);
  decode_utf8 := ascii_decode;
  json_loads := fun text =>
    match text with
    | [] => Ret (JArr [])
    | _ => Ret (JObj [(py "tokens", JArr [short_literal]); (py "ast", JNull)])
    end;
  esprima := fun _ contents => second_status contents;
  node_parse_js := second_status
|}.

(** Worlds with one item, [ab], whose source is the empty file, and with
    one item that is not ASCII. *)
Definition one_source (contents : pybytes) : world := {|
  queue := [waiting_item];
  acknowledged := [];
  errors := [];
  sources := {[ py "ab" := PyBytes contents ]};
  parsed := ∅;
  failures := ∅;
  char_count := ∅;
  history := [];
  signals := []
|}.

Definition one_undecodable : world := {|
  queue := [[Byte.xff]];
  acknowledged := [];
  errors := [];
  sources := ∅;
  parsed := ∅;
  failures := ∅;
  char_count := ∅;
  history := [];
  signals := []
|}.

(** * Properties *)

(** ** Strings *)

Lemma str_eqb_eq (a b : pystr) : str_eqb a b = true <-> a = b.
Proof.
  revert b. induction a as [|x a IH]; intros [|y b]; simpl; try (split; congruence).
  rewrite andb_true_iff, N.eqb_eq, IH. split.
  - intros [-> ->]. reflexivity.
  - intros [= -> ->]. split; reflexivity.
Qed.

Lemma str_eqb_refl (a : pystr) : str_eqb a a = true.
Proof. apply str_eqb_eq. reflexivity. Qed.

Lemma str_eqb_neq (a b : pystr) : a <> b -> str_eqb a b = false.
Proof.
  intros Hne. destruct (str_eqb a b) eqn:E; [|reflexivity].
  apply str_eqb_eq in E. contradiction.
Qed.

(** A text cannot end with a backtick and with the interpolation-open
    marker, nor start with a backtick and with a closing brace. *)
Lemma endswith_exclusive (text : pystr) :
  endswith text (py "`") = true -> endswith text (py "${") = false.
Proof.
  unfold endswith.
  change (reverse (py "`")) with [96%N]. change (reverse (py "${")) with [123%N; 36%N].
  destruct (reverse text) as [|c rest]; cbn [startswith]; [discriminate|].
  rewrite andb_true_r. intros Hc. apply N.eqb_eq in Hc. subst c. reflexivity.
Qed.

Lemma startswith_exclusive (text : pystr) :
  startswith text (py "`") = true -> startswith text (py "}") = false.
Proof.
  change (py "`") with [96%N]. change (py "}") with [125%N].
  destruct text as [|c rest]; cbn [startswith]; [discriminate|].
  rewrite andb_true_r. intros Hc. apply N.eqb_eq in Hc. subst c. reflexivity.
Qed.

(** ** Slices *)

Lemma slice_strip {A} (l : list A) (k : nat) :
  slice l 1 (- Z.of_nat (S k)) = take (length (drop 1 l) - S k) (drop 1 l).
Proof.
  unfold slice, slice_index. rewrite length_drop.
  destruct l as [|x l]; [reflexivity|].
  cbn [length drop].
  replace (1 <? 0)%Z with false by reflexivity.
  replace (- Z.of_nat (S k) <? 0)%Z with true by (symmetry; apply Z.ltb_lt; lia).
  replace (Z.to_nat (Z.min 1 (Z.of_nat (S (length l))))) with 1%nat by lia.
  cbn [drop]. f_equal. lia.
Qed.

(** ** Hexadecimal digits *)

Lemma hex_digits_acc (fuel : nat) (n : N) (acc : pystr) :
  hex_digits fuel n acc = hex_digits fuel n [] ++ acc.
Proof.
  revert n acc. induction fuel as [|fuel IH]; intros n acc; simpl; [reflexivity|].
  destruct (n <? 16)%N; [reflexivity|].
  rewrite (IH _ (_ :: acc)), (IH _ [_]), <- app_assoc. reflexivity.
Qed.

Lemma hex_digits_length (k fuel : nat) (n : N) :
  (16 ^ N.of_nat k <= n)%N -> (k < fuel)%nat ->
  (k + 1 <= length (hex_digits fuel n []))%nat.
Proof.
  revert fuel n. induction k as [|k IH]; intros fuel n Hn Hk.
  - destruct fuel as [|fuel]; [lia|]. simpl.
    destruct (n <? 16)%N; [simpl; lia|].
    rewrite hex_digits_acc, length_app. simpl. lia.
  - destruct fuel as [|fuel]; [lia|]. simpl.
    assert (16 <= n)%N as H16.
    { etransitivity; [|exact Hn].
      rewrite Nat2N.inj_succ, N.pow_succ_r'.
      assert (1 <= 16 ^ N.of_nat k)%N by (apply N.lt_pred_le, N.neq_0_lt_0, N.pow_nonzero; discriminate).
      lia. }
    destruct (N.ltb_spec n 16); [lia|].
    rewrite hex_digits_acc, length_app. simpl.
    assert (k + 1 <= length (hex_digits fuel (n / 16) []))%nat; [|lia].
    apply IH; [|lia].
    rewrite Nat2N.inj_succ, N.pow_succ_r' in Hn.
    apply N.div_le_lower_bound; [discriminate|exact Hn].
Qed.

Lemma format_X_length (n : N) : (0x10000 <= n)%N -> (5 <= length (format_X n))%nat.
Proof.
  intros Hn. unfold format_X.
  apply (hex_digits_length 4); [exact Hn|].
  assert (N.log2 0x10000 <= N.log2 n)%N as Hlog by (apply N.log2_le_mono; exact Hn).
  change (N.log2 0x10000) with 16%N in Hlog. lia.
Qed.

Lemma hex_value_of_digit (d : N) : (d < 16)%N -> hex_value_of (hex_digit d) = Some d.
Proof.
  intros Hd. unfold hex_value_of, hex_digit.
  destruct (N.ltb_spec d 10).
  - replace ((48 <=? 48 + d) && (48 + d <=? 57))%N with true.
    + f_equal. lia.
    + symmetry. apply andb_true_iff. split; apply N.leb_le; lia.
  - replace ((48 <=? 55 + d) && (55 + d <=? 57))%N with false.
    + replace ((65 <=? 55 + d) && (55 + d <=? 70))%N with true.
      * f_equal. lia.
      * symmetry. apply andb_true_iff. split; apply N.leb_le; lia.
    + symmetry. apply andb_false_iff. right. apply N.leb_gt. lia.
Qed.

Lemma parse_hex_app (acc : N) (s : pystr) (c : N) :
  parse_hex acc (s ++ [c]) =
  match parse_hex acc s, hex_value_of c with
  | Some v, Some d => Some (16 * v + d)%N
  | _, _ => None
  end.
Proof.
  revert acc. induction s as [|x s IH]; intros acc; simpl.
  - destruct (hex_value_of c); reflexivity.
  - destruct (hex_value_of x); [apply IH|reflexivity].
Qed.

Lemma parse_hex_digits (fuel : nat) (n : N) :
  (n < 16 ^ N.of_nat fuel)%N -> parse_hex 0 (hex_digits fuel n []) = Some n.
Proof.
  revert n. induction fuel as [|fuel IH]; intros n Hn.
  - simpl in Hn. assert (n = 0%N) as -> by lia. reflexivity.
  - simpl. destruct (N.ltb_spec n 16).
    + simpl. rewrite N.mod_small by assumption.
      rewrite hex_value_of_digit by assumption. reflexivity.
    + rewrite hex_digits_acc, parse_hex_app.
      rewrite IH.
      * rewrite hex_value_of_digit by (apply N.mod_lt; discriminate).
        f_equal. symmetry. apply N.div_mod. discriminate.
      * rewrite Nat2N.inj_succ, N.pow_succ_r' in Hn.
        apply N.Div0.div_lt_upper_bound. exact Hn.
Qed.

Lemma parse_hex_format_X (n : N) : parse_hex 0 (format_X n) = Some n.
Proof.
  unfold format_X. apply parse_hex_digits.
  rewrite Nat2N.inj_succ, N2Nat.id.
  destruct n as [|p]; [reflexivity|].
  apply N.lt_le_trans with (2 ^ N.succ (N.log2 (N.pos p)))%N.
  - apply N.log2_spec. reflexivity.
  - apply N.pow_le_mono_l. lia.
Qed.

(** ** The literal codepoint profiler *)

(** C6: [clean_template] removes the first character of every text, and
    then the last character, or the last two when the text ends with the
    interpolation-open marker; a closing fragment without content gives the
    empty string, and the head [`Hello, ${] gives [Hello, ]. *)
Theorem clean_template_strips :
  (forall text : pystr, clean_template text = strip_template_spec text) /\
  clean_template (py "}`") = [] /\
  clean_template (py "`Hello, ${") = py "Hello, ".
Proof.
  split; [|split; reflexivity].
  intros text. unfold clean_template, strip_template_spec, remove_last, remove_first.
  destruct (endswith text (py "${")).
  - apply (slice_strip text 1).
  - apply (slice_strip text 0).
Qed.

(** C7: the label of a code point is [U+] followed by its value in
    uppercase hexadecimal digits, padded with zeros to four digits below
    [0x10000] and to five from there on; [0x1F618] is labelled [U+1F618]
    and [0x41] is labelled [U+0041]. *)
Theorem in_uplus_notation_label :
  (forall cp : N,
      in_uplus_notation cp = codepoint_label_spec cp /\
      parse_hex 0 (format_X cp) = Some cp) /\
  in_uplus_notation 0x1F618 = py "U+1F618" /\
  in_uplus_notation 0x41 = py "U+0041".
Proof.
  split; [|split; reflexivity].
  intros cp. split; [|apply parse_hex_format_X].
  unfold in_uplus_notation, codepoint_label_spec, format_5X, format_04X,
    pad_left, zero_padded.
  destruct (N.ltb_spec 0xFFFF cp) as [Hbig|Hsmall].
  - destruct (N.ltb_spec cp 0x10000); [lia|].
    pose proof (format_X_length cp) as Hlen.
    replace (5 - length (format_X cp))%nat with 0%nat by lia. reflexivity.
  - destruct (N.ltb_spec cp 0x10000); [reflexivity|lia].
Qed.

(** ** The lexeme canonicalizer *)

Section CanonicalizerProperties.

Context `{Externals}.

Lemma StringifyLexeme_call_unfold (depth : nat) (token : argument) :
  StringifyLexeme_call (S depth) token =
  call_body (fun text => StringifyLexeme_call depth (ArgStr text)) token.
Proof. reflexivity. Qed.

(** A kind that names a method of the class is handled by that method. *)
Lemma stringify_lexeme_method (token : Lexeme) (method : pystr -> result pyvalue) :
  assoc (name token) token_methods = Some method ->
  stringify_lexeme token = method (value token).
Proof.
  intros Hm. unfold stringify_lexeme, recursion_limit.
  rewrite StringifyLexeme_call_unfold. unfold call_body, getattr_self.
  cbn [arg_name arg_value mbind result_bind]. rewrite Hm. reflexivity.
Qed.

(** A kind that names no attribute of the instance is refused. *)
Lemma stringify_lexeme_unhandled (token : Lexeme) :
  assoc (name token) token_methods = None ->
  str_eqb (name token) (py "__call__") = false ->
  object_attr (name token) = None ->
  stringify_lexeme token = Raise (TypeError (py "Unhandled type: " ++ name token)).
Proof.
  intros Hm Hcall Hobj. unfold stringify_lexeme, recursion_limit.
  rewrite StringifyLexeme_call_unfold. unfold call_body, getattr_self.
  cbn [arg_name arg_value mbind result_bind]. rewrite Hm, Hcall, Hobj. reflexivity.
Qed.

(** The instance called through its own [__call__] attribute receives a
    [str], which has no [name]. *)
Lemma stringify_lexeme_dunder_call (text : pystr) :
  stringify_lexeme {| name := py "__call__"; value := text |} =
  Raise (AttributeError (py "name")).
Proof. reflexivity. Qed.

Lemma assoc_in_alphabet (kind : pystr) :
  in_alphabet kind = true <-> is_Some (assoc kind token_methods).
Proof.
  unfold in_alphabet, alphabet.
  induction token_methods as [|[k m] rest IH]; simpl.
  - split; [discriminate|intros [? [=]]].
  - destruct (str_eqb kind k); simpl; [split; eauto|exact IH].
Qed.

Lemma in_alphabet_cases (kind : pystr) :
  in_alphabet kind = true ->
  kind = py "Boolean" \/ kind = py "Identifier" \/ kind = py "Keyword" \/
  kind = py "Null" \/ kind = py "Numeric" \/ kind = py "Punctuator" \/
  kind = py "String" \/ kind = py "RegularExpression" \/ kind = py "Template".
Proof.
  unfold in_alphabet, alphabet, token_methods. cbn [map fst existsb].
  rewrite orb_false_r, !orb_true_iff, !str_eqb_eq. tauto.
Qed.

(** C4: a [Template] token of two characters or more is classified by
    its delimiters: backtick to backtick is a standalone template,
    backtick to interpolation-open a head, interpolation-close to
    backtick a tail, interpolation-close to interpolation-open a middle;
    any other shape raises [TypeError]. *)
Theorem template_shape_classified (text : pystr) :
  (2 <= length text)%nat ->
  let canonical := stringify_lexeme {| name := py "Template"; value := text |} in
  (startswith text (py "`") = true -> endswith text (py "`") = true ->
   canonical = symbol "<STANDALONE-TEMPLATE>") /\
  (startswith text (py "`") = true -> endswith text (py "${") = true ->
   canonical = symbol "<TEMPLATE-HEAD>") /\
  (startswith text (py "}") = true -> endswith text (py "`") = true ->
   canonical = symbol "<TEMPLATE-TAIL>") /\
  (startswith text (py "}") = true -> endswith text (py "${") = true ->
   canonical = symbol "<TEMPLATE-MIDDLE>") /\
  ((startswith text (py "`") || startswith text (py "}")) &&
   (endswith text (py "`") || endswith text (py "${")) = false ->
   canonical = Raise (TypeError (py "Unhandled template literal: " ++ text))).
Proof.
  intros Hlen canonical. subst canonical.
  rewrite (stringify_lexeme_method _ StringifyLexeme_Template) by reflexivity.
  cbn [value]. unfold StringifyLexeme_Template.
  destruct (Nat.ltb_spec (length text) 2) as [|_]; [lia|].
  pose proof (startswith_exclusive text) as Hstart.
  pose proof (endswith_exclusive text) as Hend.
  destruct (startswith text (py "`")), (startswith text (py "}")),
    (endswith text (py "`")), (endswith text (py "${"));
    repeat split; intros; try reflexivity; try discriminate;
    try (specialize (Hstart eq_refl); discriminate);
    try (specialize (Hend eq_refl); discriminate).
Qed.

(** C5: the canonical symbol of a token is given by its kind: the text
    itself for [Boolean], [Keyword] and [Punctuator], and a fixed symbol
    for [Null], [Identifier], [Numeric], [String] and
    [RegularExpression]; nothing but the token enters the result. *)
Theorem canonical_symbol_by_kind (text : pystr) :
  stringify_lexeme {| name := py "Boolean"; value := text |} = Ret (PyStr text) /\
  stringify_lexeme {| name := py "Keyword"; value := text |} = Ret (PyStr text) /\
  stringify_lexeme {| name := py "Punctuator"; value := text |} = Ret (PyStr text) /\
  stringify_lexeme {| name := py "Null"; value := text |} = symbol "null" /\
  stringify_lexeme {| name := py "Identifier"; value := text |} = symbol "<IDENTIFIER>" /\
  stringify_lexeme {| name := py "Numeric"; value := text |} = symbol "<NUMBER>" /\
  stringify_lexeme {| name := py "String"; value := text |} = symbol "<STRING>" /\
  stringify_lexeme {| name := py "RegularExpression"; value := text |} = symbol "<REGEXP>".
Proof. repeat split. Qed.

(** C8, amended: a token whose kind names no attribute of the
    canonicalizer (a kind outside the alphabet, other than [__call__] and
    the names inherited from [object]) raises [TypeError]; a token of a
    kind of the alphabet other than [Template] gets a symbol; a
    [Template] token gets a symbol when its text has one of the four
    shapes, and raises otherwise. *)
Theorem canonicalizer_totality (token : Lexeme) :
  (in_alphabet (name token) = false ->
   name token <> py "__call__" ->
   object_attr (name token) = None ->
   stringify_lexeme token = Raise (TypeError (py "Unhandled type: " ++ name token))) /\
  (in_alphabet (name token) = true ->
   name token <> py "Template" ->
   exists s, stringify_lexeme token = Ret (PyStr s)) /\
  (name token = py "Template" ->
   if template_shaped (value token)
   then exists s, stringify_lexeme token = Ret (PyStr s)
   else returns (stringify_lexeme token) = false).
Proof.
  destruct token as [kind text]. cbn [name value]. split; [|split].
  - intros Hout Hcall Hobj. apply stringify_lexeme_unhandled; cbn [name]; [|by apply str_eqb_neq|done].
    destruct (assoc kind token_methods) eqn:E; [|reflexivity].
    assert (in_alphabet kind = true) by (apply assoc_in_alphabet; eauto). congruence.
  - intros Hin Hne. apply in_alphabet_cases in Hin.
    destruct Hin as [-> | [-> | [-> | [-> | [-> | [-> | [-> | [-> | ->]]]]]]]];
      try (eexists; reflexivity). contradiction.
  - intros ->.
    rewrite (stringify_lexeme_method _ StringifyLexeme_Template) by reflexivity.
    cbn [value]. unfold template_shaped, StringifyLexeme_Template.
    destruct (Nat.ltb_spec (length text) 2) as [Hshort|Hlong].
    + destruct (Nat.leb_spec 2 (length text)); [lia|]. reflexivity.
    + destruct (Nat.leb_spec 2 (length text)); [|lia].
      destruct (startswith text (py "`")), (startswith text (py "}")),
        (endswith text (py "`")), (endswith text (py "${"));
        cbn; try reflexivity; eexists; reflexivity.
Qed.

End CanonicalizerProperties.

(** ** The tokenizer adapter *)

Section AdapterProperties.

Context `{Externals}.

(** C2, amended: [parse_js] raises [ParseError] when the parser exits
    with status 1; any other status above zero is let through as the
    [ErrorReturnCode] of the [sh] library; [JavaScript.tokenize] raises
    [CalledProcessError] on every status other than zero. *)
Theorem parser_exit_status (src : pyvalue) (contents : pybytes) (w : os) :
  written src = Ret contents ->
  (returncode (node_parse_js contents) = 1%Z ->
   parse_js src = Raise ParseError) /\
  ((1 < returncode (node_parse_js contents))%Z ->
   parse_js src = Raise (ErrorReturnCode (returncode (node_parse_js contents)))) /\
  (returncode (esprima [] contents) <> 0%Z ->
   (tokenize (PyBytes contents) w).1 =
   Raise (CalledProcessError (returncode (esprima [] contents)))).
Proof.
  intros Hsrc. split; [|split].
  - intros Hone. unfold parse_js. rewrite Hsrc. cbn [mbind result_bind].
    unfold sh_result. rewrite Hone. reflexivity.
  - intros Hmore. unfold parse_js. rewrite Hsrc. cbn [mbind result_bind].
    unfold sh_result.
    destruct (Z.eqb_spec (returncode (node_parse_js contents)) 0); [lia|].
    destruct (Z.ltb_spec 0 (returncode (node_parse_js contents))); [|lia].
    destruct (returncode (node_parse_js contents)) as [|[p|p|]|p]; try lia; reflexivity.
  - intros Hfail. unfold tokenize, with_SafeSourceFile, SafeSourceFile_enter,
      SafeSourceFile_init, synthetic_file, _tokenize, subprocess_run,
      mbind, io_bind, mret, io_ret.
    cbn [source files next_fd].
    rewrite lookup_insert_eq. cbn [closed offset data andb]. rewrite drop_0.
    destruct (Z.eqb_spec (returncode (esprima [] contents)) 0); [contradiction|].
    reflexivity.
Qed.

(** C9: a source that is neither a [str], nor a [bytes], nor a stream
    makes [tokenize] and [check_syntax] raise [ValueError] with that
    value; no file is opened and no subprocess is run. *)
Theorem unsupported_source_rejected (src : pyvalue) (w : os) :
  accepted_source src = false ->
  tokenize src w = (Raise (ValueError src), w) /\
  check_syntax src w = (Raise (ValueError src), w) /\
  spawned (tokenize src w).2 = spawned w /\
  spawned (check_syntax src w).2 = spawned w.
Proof.
  intros Hsrc. destruct src; try discriminate; repeat split.
Qed.

Lemma is_closed_close (fd fd' : nat) (w : os) :
  fd' <> fd -> is_closed (close fd w).2 fd' = is_closed w fd'.
Proof.
  intros Hne. unfold is_closed, close. cbn [snd files].
  rewrite lookup_alter_ne by congruence. reflexivity.
Qed.

(** Running the parser closes nothing. *)
Lemma is_closed_subprocess_run (args : list pystr) (check : bool) (stdin fd' : nat) (w : os) :
  is_closed (subprocess_run args check stdin w).2 fd' = is_closed w fd'.
Proof.
  unfold is_closed, subprocess_run.
  destruct (files w !! stdin) as [f|] eqn:Hf; [|reflexivity].
  destruct (closed f) eqn:Hc; [reflexivity|].
  assert (closed <$> (<[stdin := {| data := data f; offset := length (data f); closed := false |}]> (files w)) !! fd'
          = closed <$> files w !! fd') as Hsame.
  { destruct (decide (stdin = fd')) as [->|Hne].
    - rewrite lookup_insert_eq, Hf. cbn. rewrite Hc. reflexivity.
    - rewrite lookup_insert_ne by exact Hne. reflexivity. }
  destruct (check && _); exact Hsame.
Qed.

(** A stream handed to [SafeSourceFile] is as open after the [with]
    statement as before it, whatever the body does to the other files. *)
Lemma is_closed_with_foreign {A} (fd fd' : nat) (body : nat -> io A) (w : os) :
  (forall w0, is_closed (body fd w0).2 fd' = is_closed w0 fd') ->
  is_closed (with_SafeSourceFile (PyFile fd) body w).2 fd' = is_closed w fd'.
Proof.
  intros Hbody. unfold with_SafeSourceFile, SafeSourceFile_enter, SafeSourceFile_init,
    mret, io_ret.
  cbn [source _owned _foreign].
  specialize (Hbody w). destruct (body fd w) as [outcome w2].
  unfold SafeSourceFile_exit, mret, io_ret. cbn [_owned _foreign snd]. exact Hbody.
Qed.

(** Whatever the source, the [with] statement closes no file but the
    temporary one, whose descriptor is the next free one. *)
Lemma is_closed_with_other {A} (src : pyvalue) (fd' : nat) (body : nat -> io A) (w : os) :
  (forall fd w0, is_closed (body fd w0).2 fd' = is_closed w0 fd') ->
  fd' <> next_fd w ->
  is_closed (with_SafeSourceFile src body w).2 fd' = is_closed w fd'.
Proof.
  intros Hbody Hne.
  destruct src; try reflexivity; try (apply is_closed_with_foreign; apply Hbody).
  all: unfold with_SafeSourceFile, SafeSourceFile_enter, SafeSourceFile_init, synthetic_file,
         mbind, io_bind, mret, io_ret.
  all: cbn [source _owned _foreign files next_fd spawned].
  - destruct (encode_utf8 s) as [b|e]; cbn [files next_fd spawned].
    + match goal with |- context [body ?fd ?w0] =>
        specialize (Hbody fd w0); destruct (body fd w0) as [outcome w2] end.
      unfold SafeSourceFile_exit. cbn [_owned].
      pose proof (is_closed_close (next_fd w) fd' w2 Hne) as Hclose.
      destruct (close (next_fd w) w2) as [[[]|e] w3]; cbn [snd] in *;
        rewrite Hclose, Hbody; unfold is_closed; cbn [files];
        rewrite !lookup_insert_ne by congruence; reflexivity.
    + unfold is_closed. cbn [snd files]. rewrite lookup_insert_ne by congruence. reflexivity.
  - match goal with |- context [body ?fd ?w0] =>
      specialize (Hbody fd w0); destruct (body fd w0) as [outcome w2] end.
    unfold SafeSourceFile_exit. cbn [_owned].
    pose proof (is_closed_close (next_fd w) fd' w2 Hne) as Hclose.
    destruct (close (next_fd w) w2) as [[[]|e] w3]; cbn [snd] in *;
      rewrite Hclose, Hbody; unfold is_closed; cbn [files];
      rewrite !lookup_insert_ne by congruence; reflexivity.
Qed.

Lemma tokenize_world (src : pyvalue) (w : os) :
  (tokenize src w).2 = (with_SafeSourceFile src _tokenize w).2.
Proof.
  unfold tokenize, mbind, io_bind.
  destruct (with_SafeSourceFile src _tokenize w) as [[status|e] w']; reflexivity.
Qed.

Lemma check_syntax_world (src : pyvalue) (w : os) :
  (check_syntax src w).2 =
  (with_SafeSourceFile src (subprocess_run [py "--check-syntax"] false) w).2.
Proof.
  unfold check_syntax, mbind, io_bind.
  destruct (with_SafeSourceFile src _ w) as [[status|e] w']; reflexivity.
Qed.

(** C10: [tokenize] and [check_syntax] leave a stream they are given as
    open as they found it, however they end; whatever the source, the
    only file they close is the temporary file they create themselves,
    and that one they do close. *)
Theorem foreign_stream_not_closed (fd : nat) (w : os) :
  (forall fd',
      is_closed (tokenize (PyFile fd) w).2 fd' = is_closed w fd' /\
      is_closed (check_syntax (PyFile fd) w).2 fd' = is_closed w fd') /\
  (forall src fd',
      fd' <> next_fd w ->
      is_closed (tokenize src w).2 fd' = is_closed w fd' /\
      is_closed (check_syntax src w).2 fd' = is_closed w fd') /\
  (forall contents,
      is_closed (tokenize (PyBytes contents) w).2 (next_fd w) = Some true /\
      is_closed (check_syntax (PyBytes contents) w).2 (next_fd w) = Some true).
Proof.
  split; [|split].
  - intros fd'. rewrite tokenize_world, check_syntax_world. split.
    + apply is_closed_with_foreign. intros w0. apply is_closed_subprocess_run.
    + apply is_closed_with_foreign. intros w0. apply is_closed_subprocess_run.
  - intros src fd' Hne. rewrite tokenize_world, check_syntax_world. split.
    + apply is_closed_with_other; [|exact Hne]. intros fd0 w0. apply is_closed_subprocess_run.
    + apply is_closed_with_other; [|exact Hne]. intros fd0 w0. apply is_closed_subprocess_run.
  - intros contents. rewrite tokenize_world, check_syntax_world.
    unfold with_SafeSourceFile, SafeSourceFile_enter, SafeSourceFile_init,
      synthetic_file, _tokenize, subprocess_run, SafeSourceFile_exit, close, is_closed,
      mbind, io_bind, mret, io_ret.
    cbn [source files next_fd spawned _owned].
    rewrite !lookup_insert_eq. cbn [closed offset data andb].
    split.
    + destruct (negb _); cbn [snd files _owned];
        rewrite lookup_alter_eq, lookup_insert_eq; reflexivity.
    + cbn [snd files _owned]. rewrite lookup_alter_eq, lookup_insert_eq. reflexivity.
Qed.

End AdapterProperties.

(** ** The mining worker *)

Section WorkerProperties.

Context `{Externals}.

(** *** What one call does to the history of effects *)

Ltac run_call :=
  unfold call, pure, mret, M_ret in *;
  repeat match goal with
         | H : context [match signals ?w with _ => _ end] |- _ =>
             destruct (signals w) as [|[] ?]
         | H : (let '(_, _) := ?x in _) = _ |- _ => destruct x eqn:?
         end;
  simplify_eq/=.

Lemma logger_history (w w' : world) (r : result unit) :
  logger w = (r, w') -> history w' = history w.
Proof. unfold logger. intros Hrun. run_call; reflexivity. Qed.

Lemma call_pure_history {A} (x : result A) (w w' : world) (r : result A) :
  call (pure x) w = (r, w') ->
  history w' = history w /\
  (r = x \/ r = Raise KeyboardInterrupt \/ exists code, r = Raise (StoreError code)).
Proof. intros Hrun. run_call; eauto. Qed.

Lemma db_get_source_history (file_hash : pystr) (w w' : world) (r : result pyvalue) :
  db_get_source file_hash w = (r, w') ->
  history w' = history w /\ r <> Raise ParseError.
Proof.
  unfold db_get_source. intros Hrun. run_call; repeat case_match; simplify_eq/=; done.
Qed.

Lemma worker_acknowledge_history (file_hash : pystr) (w w' : world) (r : result unit) :
  worker_acknowledge file_hash w = (r, w') -> one_effect (Acknowledged file_hash) w w' r.
Proof.
  unfold worker_acknowledge, one_effect. intros Hrun. run_call; eauto.
Qed.

Lemma aborted_push_history (file_hash : pystr) (w w' : world) (r : result unit) :
  aborted_push file_hash w = (r, w') -> one_effect (Published file_hash) w w' r.
Proof.
  unfold aborted_push, one_effect. intros Hrun. run_call; eauto.
Qed.

Lemma db_set_failure_history (file_hash : pystr) (w w' : world) (r : result unit) :
  db_set_failure file_hash w = (r, w') -> one_effect (RecordedFailure file_hash) w w' r.
Proof.
  unfold db_set_failure, one_effect. intros Hrun. run_call; eauto.
Qed.

Lemma db_add_parsed_source_history (file_hash : pystr) (tokens ast : json)
    (w w' : world) (r : result unit) :
  db_add_parsed_source file_hash tokens ast w = (r, w') ->
  one_effect (StoredParse file_hash) w w' r.
Proof.
  unfold db_add_parsed_source, one_effect. intros Hrun. run_call; eauto.
Qed.

Lemma insert_count_history (counts : counter) (w w' : world) (r : result unit) :
  insert_count counts w = (r, w') -> one_effect (MergedCounts counts) w w' r.
Proof.
  unfold insert_count, one_effect. intros Hrun. run_call; eauto.
Qed.

Lemma worker_get_history (w w' : world) (r : result (option pybytes)) :
  worker_get w = (r, w') ->
  (history w' = history w /\ forall item, r <> Ret (Some item)) \/
  (exists item, history w' = history w ++ [Dequeued item] /\
                (r = Ret (Some item) \/ r = Raise KeyboardInterrupt)).
Proof.
  unfold worker_get. intros Hrun. run_call; repeat case_match; simplify_eq/=; eauto.
Qed.

(** *** The profiler raises no [ParseError] *)

Lemma mapM_not_parse_error {A B} (f : A -> result B) (l : list A) :
  (forall x, f x <> Raise ParseError) -> mapM f l <> Raise ParseError.
Proof.
  intros Hf. induction l as [|x l IH]; cbn [mapM]; [discriminate|].
  unfold mbind, result_bind.
  specialize (Hf x). destruct (f x) as [y|e]; [|congruence].
  destruct (mapM f l) as [ys|e]; [discriminate|congruence].
Qed.

Lemma subscript_ordinary (container : json) (key : pystr) (e : exn) :
  subscript container key = Raise e -> ordinary e.
Proof.
  unfold subscript, ordinary. intros Hraise.
  repeat case_match; simplify_eq; split; discriminate.
Qed.

Lemma iterate_ordinary (container : json) (e : exn) :
  iterate container = Raise e -> ordinary e.
Proof.
  unfold iterate, ordinary. intros Hraise.
  repeat case_match; simplify_eq; split; discriminate.
Qed.

Lemma ord_ordinary (x : json) (e : exn) : ord x = Raise e -> ordinary e.
Proof.
  unfold ord, ordinary. intros Hraise.
  repeat case_match; simplify_eq; split; discriminate.
Qed.

Lemma clean_literal_value_ordinary (literal : json) (e : exn) :
  clean_literal_value literal = Raise e -> ordinary e.
Proof.
  unfold clean_literal_value, len, slice_of, ordinary, mbind, result_bind. intros Hraise.
  repeat case_match; simplify_eq; split; discriminate.
Qed.

Lemma clean_template_value_ordinary (literal : json) (e : exn) :
  clean_template_value literal = Raise e -> ordinary e.
Proof.
  unfold clean_template_value, ordinary. intros Hraise.
  repeat case_match; simplify_eq; split; discriminate.
Qed.

Lemma literals_of_ordinary (token : json) (e : exn) :
  literals_of token = Raise e -> ordinary e.
Proof.
  unfold literals_of, mbind, result_bind. intros Hraise.
  destruct (subscript token (py "type")) as [type|e1] eqn:Htype;
    [|simplify_eq; apply (subscript_ordinary _ _ _ Htype)].
  destruct (subscript token (py "value")) as [v|e2] eqn:Hvalue.
  - destruct (clean_literal_value v) as [l1|e3] eqn:H1,
      (clean_template_value v) as [l2|e4] eqn:H2;
      destruct (is_str type (py "String")), (is_str type (py "Template"));
      simplify_eq;
      first [apply (clean_literal_value_ordinary _ _ H1)
            |apply (clean_template_value_ordinary _ _ H2)].
  - destruct (is_str type (py "String")), (is_str type (py "Template"));
      simplify_eq; apply (subscript_ordinary _ _ _ Hvalue).
Qed.

Lemma foldM_ordinary {A B} (f : A -> B -> result A) :
  (forall a x e, f a x = Raise e -> ordinary e) ->
  forall l a e, foldM f a l = Raise e -> ordinary e.
Proof.
  intros Hf. induction l as [|x l IH]; intros a e; cbn [foldM]; [discriminate|].
  unfold mbind, result_bind. destruct (f a x) as [a'|e1] eqn:Hstep.
  - apply IH.
  - intros [= <-]. apply (Hf a x). exact Hstep.
Qed.

Lemma count_literal_ordinary (c : counter) (literal : json) (e : exn) :
  count_literal c literal = Raise e -> ordinary e.
Proof.
  unfold count_literal, mbind, result_bind.
  destruct (iterate literal) as [items|e1] eqn:Hitems;
    [|intros [= <-]; apply (iterate_ordinary _ _ Hitems)].
  apply foldM_ordinary. intros a x e'. unfold count_scalar, mbind, result_bind.
  destruct (ord x) as [ordinal|e2] eqn:Hord; [discriminate|].
  intros [= <-]. apply (ord_ordinary _ _ Hord).
Qed.

Lemma count_codepoints_ordinary (tokens : json) (e : exn) :
  count_codepoints_in_literals tokens = Raise e -> ordinary e.
Proof.
  unfold count_codepoints_in_literals, mbind, result_bind.
  destruct (iterate tokens) as [toks|e1] eqn:Htoks;
    [|intros [= <-]; apply (iterate_ordinary _ _ Htoks)].
  apply foldM_ordinary. intros c token e'.
  destruct (literals_of token) as [found|e2] eqn:Hfound.
  - apply foldM_ordinary. intros a literal e''. apply count_literal_ordinary.
  - intros [= <-]. apply (literals_of_ordinary _ _ Hfound).
Qed.

Lemma subscript_not_parse_error (container : json) (key : pystr) :
  subscript container key <> Raise ParseError.
Proof. intros Hraise. apply subscript_ordinary in Hraise as [_ Hpe]. congruence. Qed.

Lemma literals_of_not_parse_error (token : json) :
  literals_of token <> Raise ParseError.
Proof. intros Hraise. apply literals_of_ordinary in Hraise as [_ Hpe]. congruence. Qed.

Lemma count_codepoints_not_parse_error (tokens : json) :
  count_codepoints_in_literals tokens <> Raise ParseError.
Proof. intros Hraise. apply count_codepoints_ordinary in Hraise as [_ Hpe]. congruence. Qed.

(** *** The [try] statement *)

Lemma attempt_history (file_hash : pystr) (w w' : world) (r : result unit) :
  attempt file_hash w = (r, w') ->
  exists evs,
    history w' = history w ++ evs /\
    Forall silent evs /\
    (r = Raise ParseError -> evs = []) /\
    (returns r = true ->
     exists counts, evs = [StoredParse file_hash; MergedCounts counts]).
Proof.
  unfold attempt, mbind, M_bind. intros Hrun.
  destruct (db_get_source file_hash w) as [[src|e] w1] eqn:H1;
    apply db_get_source_history in H1 as [Hh1 Hr1].
  2: { simplify_eq. exists []. rewrite app_nil_r. repeat split; try done. }
  destruct (call (pure (parse_js src)) w1) as [[[tokens ast]|e] w2] eqn:H2;
    apply call_pure_history in H2 as [Hh2 Hr2].
  2: { simplify_eq. exists []. rewrite app_nil_r. repeat split; try done. congruence. }
  destruct (db_add_parsed_source file_hash tokens ast w2) as [[[]|e] w3] eqn:H3;
    apply db_add_parsed_source_history in H3 as [(Hr3 & Hp3 & Hh3)|(Hr3 & Hh3)];
    try discriminate.
  2: { simplify_eq. exists []. rewrite app_nil_r. repeat split; try done. congruence. }
  2: { simplify_eq. exists [StoredParse file_hash]. destruct Hr3; simplify_eq.
       repeat split; try done; [congruence|repeat constructor]. }
  destruct (call (pure (count_codepoints_in_literals tokens)) w3) as [[counts|e] w4] eqn:H4;
    apply call_pure_history in H4 as [Hh4 Hr4].
  2: { simplify_eq. exists [StoredParse file_hash].
       repeat split; try done; [congruence|repeat constructor|].
       intros [= ->]. pose proof (count_codepoints_not_parse_error tokens).
       destruct Hr4 as [?|[?|[? ?]]]; congruence. }
  apply insert_count_history in Hrun as [(Hr5 & Hp5 & Hh5)|(Hr5 & Hh5)].
  - exists [StoredParse file_hash].
    split; [congruence|]. split; [repeat constructor|]. split; congruence.
  - exists [StoredParse file_hash; MergedCounts counts].
    rewrite Hh5, Hh4, Hh3, Hh2, Hh1, <- app_assoc.
    split; [reflexivity|]. split; [repeat constructor|]. split; [|eauto].
    destruct Hr5; congruence.
Qed.

(** *** The handlers *)

Lemma acknowledge_block (file_hash : pystr) (c : control) (w w' : world) (r : result control) :
  (_ ← worker_acknowledge file_hash; _ ← logger; mret c) w = (r, w') ->
  history w' = history w \/ history w' = history w ++ [Acknowledged file_hash].
Proof.
  unfold mbind, M_bind, mret, M_ret. intros Hrun.
  destruct (worker_acknowledge file_hash w) as [[[]|e] w1] eqn:H1;
    apply worker_acknowledge_history in H1 as [(Hr1 & _ & Hh1)|(_ & Hh1)]; try discriminate.
  - destruct (logger w1) as [[[]|e'] w2] eqn:H2; apply logger_history in H2;
      simplify_eq; right; congruence.
  - simplify_eq. left. congruence.
  - simplify_eq. right. congruence.
Qed.

Lemma publish_block (file_hash : pystr) (c : control) (w w' : world) (r : result control) :
  (_ ← aborted_push file_hash; _ ← logger; mret c) w = (r, w') ->
  history w' = history w \/ history w' = history w ++ [Published file_hash].
Proof.
  unfold mbind, M_bind, mret, M_ret. intros Hrun.
  destruct (aborted_push file_hash w) as [[[]|e] w1] eqn:H1;
    apply aborted_push_history in H1 as [(Hr1 & _ & Hh1)|(_ & Hh1)]; try discriminate.
  - destruct (logger w1) as [[[]|e'] w2] eqn:H2; apply logger_history in H2;
      simplify_eq; right; congruence.
  - simplify_eq. left. congruence.
  - simplify_eq. right. congruence.
Qed.

Lemma failure_block (file_hash : pystr) (w w' : world) (r : result control) :
  (_ ← db_set_failure file_hash; _ ← worker_acknowledge file_hash; _ ← logger; mret Continue) w
  = (r, w') ->
  history w' = history w \/
  history w' = history w ++ [RecordedFailure file_hash] \/
  history w' = history w ++ [RecordedFailure file_hash; Acknowledged file_hash].
Proof.
  intros Hrun. unfold mbind at 1, M_bind at 1 in Hrun.
  destruct (db_set_failure file_hash w) as [[[]|e] w1] eqn:H1;
    apply db_set_failure_history in H1 as [(Hr1 & _ & Hh1)|(_ & Hh1)]; try discriminate.
  - apply acknowledge_block in Hrun as [Hh|Hh]; right; [left|right]; rewrite Hh, Hh1;
      [reflexivity|rewrite <- app_assoc; reflexivity].
  - simplify_eq. left. congruence.
  - simplify_eq. right. left. congruence.
Qed.

Lemma fault_block (file_hash : pystr) (w w' : world) (r : result control) :
  (_ ← aborted_push file_hash; _ ← worker_acknowledge file_hash; _ ← logger; mret Continue) w
  = (r, w') ->
  history w' = history w \/
  history w' = history w ++ [Published file_hash] \/
  history w' = history w ++ [Published file_hash; Acknowledged file_hash].
Proof.
  intros Hrun. unfold mbind at 1, M_bind at 1 in Hrun.
  destruct (aborted_push file_hash w) as [[[]|e] w1] eqn:H1;
    apply aborted_push_history in H1 as [(Hr1 & _ & Hh1)|(_ & Hh1)]; try discriminate.
  - apply acknowledge_block in Hrun as [Hh|Hh]; right; [left|right]; rewrite Hh, Hh1;
      [reflexivity|rewrite <- app_assoc; reflexivity].
  - simplify_eq. left. congruence.
  - simplify_eq. right. left. congruence.
Qed.

Lemma silent_published (file_hash : pystr) (evs : list event) :
  Forall silent evs -> Forall silent (evs ++ [Published file_hash]).
Proof. intros Hs. apply Forall_app. split; [exact Hs|repeat constructor]. Qed.

(** The [try] statement acknowledges the item at most once, as its last
    effect, and only after the store or the error queue has the item. *)
Lemma process_history (file_hash : pystr) (w w' : world) (r : result control) :
  process file_hash w = (r, w') ->
  exists evs, history w' = history w ++ evs /\ handled file_hash evs.
Proof.
  unfold process, handled. intros Hrun.
  destruct (attempt file_hash w) as [[[]|e] w1] eqn:Ha;
    apply attempt_history in Ha as (evs1 & Hh1 & Hsilent & Hparse & Hret).
  - destruct (Hret eq_refl) as [counts ->].
    apply acknowledge_block in Hrun as [Hh|Hh]; rewrite Hh, Hh1.
    + eexists. split; [reflexivity|]. left. exact Hsilent.
    + eexists. rewrite <- app_assoc. split; [reflexivity|]. right. left.
      exists counts. reflexivity.
  - assert (e = KeyboardInterrupt \/ e = ParseError \/
            (_ ← aborted_push file_hash; _ ← worker_acknowledge file_hash;
             _ ← logger; mret Continue) w1 = (r, w')) as [->|[->|Hfault]]
      by (destruct e; eauto).
    + apply publish_block in Hrun as [Hh|Hh]; rewrite Hh, Hh1.
      * eexists. split; [reflexivity|]. left. exact Hsilent.
      * eexists. rewrite <- app_assoc. split; [reflexivity|]. left.
        apply silent_published. exact Hsilent.
    + rewrite (Hparse eq_refl), app_nil_r in Hh1.
      apply failure_block in Hrun as [Hh|[Hh|Hh]]; rewrite Hh, Hh1.
      * exists []. rewrite app_nil_r. split; [reflexivity|]. left. constructor.
      * eexists. split; [reflexivity|]. left. repeat constructor.
      * eexists. split; [reflexivity|]. right. right. left. reflexivity.
    + apply fault_block in Hfault as [Hh|[Hh|Hh]]; rewrite Hh, Hh1.
      * eexists. split; [reflexivity|]. left. exact Hsilent.
      * eexists. rewrite <- app_assoc. split; [reflexivity|]. left.
        apply silent_published. exact Hsilent.
      * eexists. rewrite <- app_assoc. split; [reflexivity|]. right. right. right.
        exists evs1. split; [exact Hsilent|reflexivity].
Qed.

(** An interrupt that the [try] statement catches: with no further signal
    the item is published to the error queue, it is not acknowledged, and
    the loop is left by [break]. *)
Lemma interrupt_in_attempt_published (file_hash : pystr) (w w1 : world) :
  attempt file_hash w = (Raise KeyboardInterrupt, w1) ->
  signals w1 = [] ->
  exists w',
    process file_hash w = (Ret Break, w') /\
    errors w' = errors w1 ++ [file_hash] /\
    acknowledged w' = acknowledged w1 /\
    history w' = history w1 ++ [Published file_hash].
Proof.
  intros Hattempt Hquiet. unfold process. rewrite Hattempt.
  unfold aborted_push, logger, call, mbind, M_bind, mret, M_ret.
  rewrite Hquiet. cbn [signals record set_errors]. rewrite Hquiet.
  eexists. split; [reflexivity|]. repeat split.
Qed.

(** *** The loop *)

Lemma iteration_history (w w' : world) (r : result control) :
  iteration w = (r, w') ->
  exists evs, history w' = history w ++ evs /\ pass evs.
Proof.
  unfold iteration. intros Hrun.
  destruct (worker_get w) as [r0 w1] eqn:Hget.
  apply worker_get_history in Hget as [[Hh0 Hnone]|(item & Hh0 & Hr0)].
  - exists []. rewrite app_nil_r. split; [|constructor].
    destruct r0 as [[item|]|e]; [by destruct (Hnone item)|by simplify_eq|].
    destruct e; simplify_eq; try congruence.
    unfold mbind, M_bind, mret, M_ret in Hrun.
    destruct (logger w1) as [[[]|e] w2] eqn:Hlog; apply logger_history in Hlog;
      simplify_eq; congruence.
  - destruct Hr0 as [->| ->].
    + unfold mbind at 1, M_bind at 1 in Hrun.
      destruct (call (pure (decode_utf8 item)) w1) as [[file_hash|e] w2] eqn:Hdec;
        apply call_pure_history in Hdec as [Hh2 Hr2].
      2: { simplify_eq. exists [Dequeued item]. split; [congruence|].
           apply pass_unacknowledged. constructor. }
      assert (decode_utf8 item = Ret file_hash) as Hhash
          by (destruct Hr2 as [?|[?|[? ?]]]; congruence).
      unfold mbind at 1, M_bind at 1 in Hrun.
      destruct (logger w2) as [[[]|e] w3] eqn:Hlog; apply logger_history in Hlog.
      2: { simplify_eq. exists [Dequeued item]. split; [congruence|].
           apply pass_unacknowledged. constructor. }
      apply process_history in Hrun as (evs & Hh & Hhandled).
      exists (Dequeued item :: evs). split.
      { rewrite Hh, Hlog, Hh2, Hh0, <- app_assoc. reflexivity. }
      destruct Hhandled as [Hs|[[counts ->]|[->|(body & Hs & ->)]]].
      * apply pass_unacknowledged. exact Hs.
      * apply pass_success. exact Hhash.
      * apply pass_syntax_error. exact Hhash.
      * apply pass_fault; assumption.
    + unfold mbind, M_bind, mret, M_ret in Hrun.
      exists [Dequeued item]. split; [|apply pass_unacknowledged; constructor].
      destruct (logger w1) as [[[]|e] w2] eqn:Hlog; apply logger_history in Hlog;
        simplify_eq; congruence.
Qed.

Lemma main_loop_history (fuel : nat) (w w' : world) (r : result ending) :
  main_loop fuel w = (r, w') ->
  exists passes, history w' = history w ++ concat passes /\ Forall pass passes.
Proof.
  revert w. induction fuel as [|fuel IH]; intros w Hrun.
  - unfold main_loop, mret, M_ret in Hrun. simplify_eq.
    exists []. rewrite app_nil_r. split; [reflexivity|constructor].
  - cbn [main_loop] in Hrun. unfold mbind, M_bind in Hrun.
    destruct (iteration w) as [[c|e] w1] eqn:Hiter;
      apply iteration_history in Hiter as (evs & Hh & Hpass).
    2: { simplify_eq. exists [evs]. cbn. rewrite app_nil_r.
         split; [exact Hh|repeat constructor; exact Hpass]. }
    destruct c.
    + apply IH in Hrun as (passes & Hh' & Hall).
      exists (evs :: passes). cbn. rewrite Hh', Hh, <- app_assoc.
      split; [reflexivity|constructor; assumption].
    + unfold mret, M_ret in Hrun. simplify_eq. exists [evs]. cbn. rewrite app_nil_r.
      split; [exact Hh|repeat constructor; exact Hpass].
    + unfold mret, M_ret in Hrun. simplify_eq. exists [evs]. cbn. rewrite app_nil_r.
      split; [exact Hh|repeat constructor; exact Hpass].
Qed.

(** *** The loop ends *)

Lemma keeps_queue_ret {A} (a : A) : keeps_queue (mret a).
Proof. intros w. reflexivity. Qed.

Lemma keeps_queue_pure {A} (x : result A) : keeps_queue (pure x).
Proof. intros w. reflexivity. Qed.

Lemma keeps_queue_bind {A B} (m : M A) (f : A -> M B) :
  keeps_queue m -> (forall a, keeps_queue (f a)) -> keeps_queue (m ≫= f).
Proof.
  intros Hm Hf w. unfold mbind, M_bind. specialize (Hm w).
  destruct (m w) as [[a|e] w1]; cbn [snd] in *; [|exact Hm].
  rewrite Hf. exact Hm.
Qed.

Lemma keeps_queue_call {A} (op : M A) : keeps_queue op -> keeps_queue (call op).
Proof.
  intros Hop w. unfold call.
  destruct (signals w) as [|[] rest]; try reflexivity; try apply Hop.
  - rewrite Hop. reflexivity.
  - specialize (Hop (set_signals rest w)).
    destruct (op (set_signals rest w)) as [r w1]. exact Hop.
Qed.

Lemma keeps_queue_logger : keeps_queue logger.
Proof. apply keeps_queue_call, keeps_queue_ret. Qed.

Lemma keeps_queue_acknowledge (file_hash : pystr) :
  keeps_queue (worker_acknowledge file_hash).
Proof. apply keeps_queue_call. intros w. reflexivity. Qed.

Lemma keeps_queue_push (file_hash : pystr) : keeps_queue (aborted_push file_hash).
Proof. apply keeps_queue_call. intros w. reflexivity. Qed.

Lemma keeps_queue_set_failure (file_hash : pystr) : keeps_queue (db_set_failure file_hash).
Proof. apply keeps_queue_call. intros w. reflexivity. Qed.

Lemma keeps_queue_attempt (file_hash : pystr) : keeps_queue (attempt file_hash).
Proof.
  unfold attempt. apply keeps_queue_bind.
  { apply keeps_queue_call. intros w. destruct (sources w !! file_hash); reflexivity. }
  intros src. apply keeps_queue_bind; [apply keeps_queue_call, keeps_queue_pure|].
  intros [tokens ast]. apply keeps_queue_bind.
  { apply keeps_queue_call. intros w. reflexivity. }
  intros _. apply keeps_queue_bind; [apply keeps_queue_call, keeps_queue_pure|].
  intros counts. apply keeps_queue_call. intros w. reflexivity.
Qed.

Lemma keeps_queue_process (file_hash : pystr) : keeps_queue (process file_hash).
Proof.
  intros w. unfold process.
  pose proof (keeps_queue_attempt file_hash w) as Ha.
  destruct (attempt file_hash w) as [[[]|e] w1]; cbn [snd] in Ha; rewrite <- Ha.
  - apply keeps_queue_bind; [apply keeps_queue_acknowledge|].
    intros _. apply keeps_queue_bind; [apply keeps_queue_logger|].
    intros _. apply keeps_queue_ret.
  - destruct e.
    1: { apply keeps_queue_bind; [apply keeps_queue_push|].
         intros _. apply keeps_queue_bind; [apply keeps_queue_logger|].
         intros _. apply keeps_queue_ret. }
    1: { apply keeps_queue_bind; [apply keeps_queue_set_failure|].
         intros _. apply keeps_queue_bind; [apply keeps_queue_acknowledge|].
         intros _. apply keeps_queue_bind; [apply keeps_queue_logger|].
         intros _. apply keeps_queue_ret. }
    all: apply keeps_queue_bind; [apply keeps_queue_push|];
      intros _; apply keeps_queue_bind; [apply keeps_queue_acknowledge|];
      intros _; apply keeps_queue_bind; [apply keeps_queue_logger|];
      intros _; apply keeps_queue_ret.
Qed.

Lemma worker_get_queue (w w' : world) (item : pybytes) :
  worker_get w = (Ret (Some item), w') -> queue w = item :: queue w'.
Proof.
  unfold worker_get, call. intros Hrun.
  destruct (signals w) as [|[] rest]; cbn in Hrun;
    repeat case_match; simplify_eq/=; congruence.
Qed.

(** A pass that continues has taken an item from the queue. *)
Lemma iteration_continue (w w' : world) :
  iteration w = (Ret Continue, w') -> length (queue w) = S (length (queue w')).
Proof.
  unfold iteration. intros Hrun.
  destruct (worker_get w) as [[[item|]|e] w1] eqn:Hget.
  - apply worker_get_queue in Hget. rewrite Hget. cbn [length]. f_equal.
    assert (keeps_queue (file_hash ← call (pure (decode_utf8 item));
                         _ ← logger; process file_hash)) as Hkeep.
    { apply keeps_queue_bind; [apply keeps_queue_call, keeps_queue_pure|].
      intros file_hash. apply keeps_queue_bind; [apply keeps_queue_logger|].
      intros _. apply keeps_queue_process. }
    specialize (Hkeep w1). rewrite Hrun in Hkeep. cbn [snd] in Hkeep. congruence.
  - simplify_eq.
  - destruct e; simplify_eq.
    unfold mbind, M_bind, mret, M_ret in Hrun.
    destruct (logger w1) as [[[]|e] w2]; simplify_eq.
Qed.

Lemma main_loop_finishes (fuel : nat) (w : world) :
  (length (queue w) < fuel)%nat -> (main_loop fuel w).1 <> Ret Unfinished.
Proof.
  revert w. induction fuel as [|fuel IH]; intros w Hfuel; [lia|].
  cbn [main_loop]. unfold mbind, M_bind.
  destruct (iteration w) as [[[]|e] w1] eqn:Hiter; try (cbn; discriminate).
  apply iteration_continue in Hiter. apply IH. lia.
Qed.

(** *** The handlers after the way the [try] body ended *)

Lemma call_pure_parsed {A} (x : result A) (w w' : world) (r : result A) :
  call (pure x) w = (r, w') -> parsed w' = parsed w.
Proof. intros Hrun. run_call; reflexivity. Qed.

Lemma insert_count_parsed (counts : counter) (w w' : world) (r : result unit) :
  insert_count counts w = (r, w') -> parsed w' = parsed w.
Proof. unfold insert_count. intros Hrun. run_call; reflexivity. Qed.

Lemma db_add_parsed_source_parsed (file_hash : pystr) (tokens ast : json) (w w' : world) :
  db_add_parsed_source file_hash tokens ast w = (Ret (), w') ->
  parsed w' !! file_hash = Some (tokens, ast).
Proof.
  unfold db_add_parsed_source. intros Hrun. run_call; cbn; apply lookup_insert_eq.
Qed.

(** A [try] body that returned has stored the parse under the hash. *)
Lemma attempt_stores (file_hash : pystr) (w w' : world) :
  attempt file_hash w = (Ret (), w') -> is_Some (parsed w' !! file_hash).
Proof.
  unfold attempt, mbind, M_bind. intros Hrun.
  destruct (db_get_source file_hash w) as [[src|e] w1]; [|discriminate].
  destruct (call (pure (parse_js src)) w1) as [[[tokens ast]|e] w2]; [|discriminate].
  destruct (db_add_parsed_source file_hash tokens ast w2) as [[[]|e] w3] eqn:H3;
    [|discriminate].
  apply db_add_parsed_source_parsed in H3.
  destruct (call (pure (count_codepoints_in_literals tokens)) w3) as [[counts|e] w4] eqn:H4;
    [|discriminate].
  apply call_pure_parsed in H4. apply insert_count_parsed in Hrun.
  rewrite Hrun, H4, H3. eauto.
Qed.

Lemma prefix_of_pair {A} (x y : A) (l : list A) :
  l = [] \/ l = [x] \/ l = [x; y] -> l `prefix_of` [x; y].
Proof.
  intros [->|[->| ->]]; [apply prefix_nil| |reflexivity].
  exists [y]. reflexivity.
Qed.

Lemma prefix_of_single {A} (x : A) (l : list A) :
  l = [] \/ l = [x] -> l `prefix_of` [x].
Proof. intros [->| ->]; [apply prefix_nil|reflexivity]. Qed.

Lemma process_after_attempt (file_hash : pystr) (w : world) :
  exists evs,
    history (process file_hash w).2 = history (attempt file_hash w).2 ++ evs /\
    after_attempt file_hash (attempt file_hash w).1 evs.
Proof.
  unfold process, after_attempt.
  destruct (attempt file_hash w) as [[[]|e] wa]; cbn [fst snd after_attempt_quiet].
  - match goal with |- context [?handler wa] => destruct (handler wa) as [r w'] eqn:Hrun end.
    apply acknowledge_block in Hrun as [Hh|Hh]; cbn [snd]; rewrite Hh.
    + exists []. rewrite app_nil_r. split; [reflexivity|apply prefix_nil].
    + eexists. split; reflexivity.
  - destruct e;
      match goal with |- context [?handler wa] => destruct (handler wa) as [r w'] eqn:Hrun end;
      cbn [snd].
    1: { apply publish_block in Hrun as [Hh|Hh]; rewrite Hh.
         - exists []. rewrite app_nil_r. split; [reflexivity|apply prefix_nil].
         - eexists. split; reflexivity. }
    1: { apply failure_block in Hrun as [Hh|[Hh|Hh]]; rewrite Hh.
         - exists []. rewrite app_nil_r. split; [reflexivity|apply prefix_nil].
         - eexists. split; [reflexivity|]. apply prefix_of_pair. auto.
         - eexists. split; reflexivity. }
    all: apply fault_block in Hrun as [Hh|[Hh|Hh]]; rewrite Hh;
      [exists []; rewrite app_nil_r; split; [reflexivity|apply prefix_nil]
      |eexists; split; [reflexivity|apply prefix_of_pair; auto]
      |eexists; split; reflexivity].
Qed.

Lemma process_completes (file_hash : pystr) (w : world) :
  signals (attempt file_hash w).2 = [] ->
  history (process file_hash w).2
  = history (attempt file_hash w).2 ++ after_attempt_quiet file_hash (attempt file_hash w).1 /\
  ((attempt file_hash w).1 = Raise ParseError ->
   file_hash ∈ failures (process file_hash w).2) /\
  (process file_hash w).1
  = Ret (match (attempt file_hash w).1 with
         | Raise KeyboardInterrupt => Break
         | _ => Continue
         end).
Proof.
  unfold process.
  destruct (attempt file_hash w) as [outcome wa]. cbn [fst snd]. intros Hquiet.
  destruct wa as [q acked errs srcs prsd fails agg hist sigs].
  cbn [signals] in Hquiet. subst sigs.
  destruct outcome as [[]|e]; [|destruct e];
    unfold db_set_failure, worker_acknowledge, aborted_push, logger, call,
      mbind, M_bind, mret, M_ret;
    cbn [queue signals sources parsed char_count acknowledged errors failures history
         record set_acknowledged set_errors set_failures set_signals fst snd
         after_attempt_quiet];
    rewrite <- ?app_assoc; (split; [reflexivity|]); (split; [|reflexivity]);
    try discriminate.
  intros _. apply elem_of_union. left. apply elem_of_singleton. reflexivity.
Qed.

(** With no signal, a pass is the pop followed by the [try] statement on
    the hash of the item. *)
Lemma iteration_runs_process (w : world) (item : pybytes) (rest : list pybytes)
    (file_hash : pystr) :
  signals w = [] ->
  queue w = item :: rest ->
  decode_utf8 item = Ret file_hash ->
  iteration w = process file_hash (record (Dequeued item) (set_queue rest w)).
Proof.
  intros Hquiet Hqueue Hdecode.
  destruct w as [q acked errs srcs prsd fails agg hist sigs].
  cbn [signals queue] in *. subst.
  unfold iteration, worker_get, logger, call, pure, mbind, M_bind, mret, M_ret.
  cbn [queue signals record set_queue set_signals]. rewrite Hdecode.
  cbn [queue signals record set_queue set_signals]. reflexivity.
Qed.

(** C3: however [main] runs, it ends, and its effects are those of a
    sequence of passes; each pass takes one item at most and
    acknowledges at most once, the item it took.  In every world, what
    the [try] statement adds after its body is fixed by the way the body
    ended: a body that returned has stored the parse and merged the
    counts, and only the acknowledgment follows; a body that raised
    [ParseError] has written nothing, and the failure is recorded before
    the acknowledgment; when no signal cuts the handler short, these
    effects take place in full, and the failure is in the store.  With no
    signal, a pass is the pop followed by that [try] statement. *)
Theorem acknowledged_once_after_persistence (w : world) (file_hash : pystr) :
  ((main w).1 <> Ret Unfinished /\
   exists passes,
     history (main w).2 = history w ++ concat passes /\ Forall pass passes) /\
  (exists evs,
      history (process file_hash w).2 = history (attempt file_hash w).2 ++ evs /\
      after_attempt file_hash (attempt file_hash w).1 evs) /\
  (returns (attempt file_hash w).1 = true ->
   (exists counts,
       history (attempt file_hash w).2
       = history w ++ [StoredParse file_hash; MergedCounts counts]) /\
   is_Some (parsed (attempt file_hash w).2 !! file_hash)) /\
  ((attempt file_hash w).1 = Raise ParseError ->
   history (attempt file_hash w).2 = history w) /\
  (signals (attempt file_hash w).2 = [] ->
   history (process file_hash w).2
   = history (attempt file_hash w).2
     ++ after_attempt_quiet file_hash (attempt file_hash w).1 /\
   ((attempt file_hash w).1 = Raise ParseError ->
    file_hash ∈ failures (process file_hash w).2) /\
   (process file_hash w).1
   = Ret (match (attempt file_hash w).1 with
          | Raise KeyboardInterrupt => Break
          | _ => Continue
          end)) /\
  (forall item rest,
      signals w = [] -> queue w = item :: rest -> decode_utf8 item = Ret file_hash ->
      iteration w = process file_hash (record (Dequeued item) (set_queue rest w))).
Proof.
  split; [|split; [apply process_after_attempt|split; [|split; [|split]]]].
  - unfold main, mbind, M_bind.
    pose proof (keeps_queue_logger w) as Hqueue.
    destruct (logger w) as [[[]|e] w1] eqn:Hlog; apply logger_history in Hlog;
      cbn [snd] in Hqueue.
    + rewrite <- Hqueue, <- Hlog. split.
      * apply main_loop_finishes. lia.
      * destruct (main_loop (S (length (queue w1))) w1) as [r w2] eqn:Hrun.
        apply main_loop_history in Hrun. exact Hrun.
    + split; [discriminate|]. exists []. cbn. rewrite app_nil_r.
      split; [exact Hlog|constructor].
  - destruct (attempt file_hash w) as [[[]|e] wa] eqn:Hattempt; [|discriminate].
    intros _. cbn [fst snd]. split; [|apply (attempt_stores _ _ _ Hattempt)].
    apply attempt_history in Hattempt as (evs & Hh & _ & _ & Hret).
    destruct (Hret eq_refl) as [counts ->]. exists counts. exact Hh.
  - destruct (attempt file_hash w) as [outcome wa] eqn:Hattempt. cbn [fst snd].
    intros ->. apply attempt_history in Hattempt as (evs & Hh & _ & Hparse & _).
    rewrite (Hparse eq_refl), app_nil_r in Hh. exact Hh.
  - apply process_completes.
  - intros item rest. apply iteration_runs_process.
Qed.

End WorkerProperties.

(** ** Runs on the stand-in *)

(** The tokens of the doctest of [count_codepoints_in_literals]: two empty
    strings, the three fragments of a template, and a string of one
    character outside the basic plane. *)
Example count_codepoints_doctest :
  let tokens := JArr [
    JObj [(py "type", JStr (py "String")); (py "value", JStr [34; 34]%N)];
    JObj [(py "type", JStr (py "String")); (py "value", JStr [39; 39]%N)];
    JObj [(py "type", JStr (py "Template")); (py "value", JStr (py "`${"))];
    JObj [(py "type", JStr (py "Identifier")); (py "value", JStr (py "hello"))];
    JObj [(py "type", JStr (py "Template")); (py "value", JStr (py "}, ${"))];
    JObj [(py "type", JStr (py "Identifier")); (py "value", JStr (py "world"))];
    JObj [(py "type", JStr (py "Template")); (py "value", JStr (py "}`"))];
    JObj [(py "type", JStr (py "String")); (py "value", JStr [39; 0x1F618; 39]%N)]
  ] in
  count_codepoints_in_literals tokens =
  Ret ({[ py "U+0020" := 1%Z; py "U+002C" := 1%Z; py "U+1F618" := 1%Z ]} : counter).
Proof. vm_compute. reflexivity. Qed.

(** The doctests of [StringifyLexeme]. *)
Example stringify_lexeme_doctest :
  stringify_lexeme (H := sample) {| name := py "Punctuator"; value := py "**=" |} = symbol "**=" /\
  stringify_lexeme (H := sample) {| name := py "Template"; value := py "``" |}
  = symbol "<STANDALONE-TEMPLATE>" /\
  stringify_lexeme (H := sample) {| name := py "Template"; value := py "}  ${" |}
  = symbol "<TEMPLATE-MIDDLE>" /\
  stringify_lexeme (H := sample) {| name := py "Identifier"; value := [0x1F4A9%N] |}
  = symbol "<IDENTIFIER>".
Proof. repeat split. Qed.

(** An interrupt delivered inside the [try] statement: the item is
    published to the error queue and the loop ends without an
    acknowledgment. *)
Example interrupt_in_try_published :
  let run := main (H := sample) interrupted_in_try in
  run.1 = Ret Broke /\
  errors run.2 = [py "ab"] /\
  acknowledged run.2 = [] /\
  history run.2 = [Dequeued waiting_item; Published (py "ab")].
Proof. vm_compute. repeat split. Qed.

(** Without any interrupt the failure is recorded and the item
    acknowledged, and the worker waits for the next item. *)
Example syntax_error_recorded :
  let run := main (H := sample) (one_item []) in
  run.1 = Ret Waiting /\
  errors run.2 = [] /\
  acknowledged run.2 = [py "ab"] /\
  elements (failures run.2) = [py "ab"] /\
  history run.2 = [Dequeued waiting_item; RecordedFailure (py "ab"); Acknowledged (py "ab")].
Proof. vm_compute. repeat split. Qed.

(** C1: the code against the claim.  A [KeyboardInterrupt] that is
    delivered after the pop and before the acknowledgment, but outside the
    [try] statement (in the handler of [ParseError], or between the pop
    and the [try]), leaves [main] as an exception: the item has been taken
    from the queue and is neither in the error queue nor acknowledged, and
    no failure is recorded for it. *)
Theorem interrupt_outside_try_loses_item :
  let in_handler := main (H := sample) interrupted_in_handler in
  let before_try := main (H := sample) interrupted_before_try in
  (in_handler.1 = Raise KeyboardInterrupt /\
   history in_handler.2 = [Dequeued waiting_item] /\
   queue in_handler.2 = [] /\
   errors in_handler.2 = [] /\
   acknowledged in_handler.2 = [] /\
   elements (failures in_handler.2) = []) /\
  (before_try.1 = Raise KeyboardInterrupt /\
   history before_try.2 = [Dequeued waiting_item] /\
   queue before_try.2 = [] /\
   errors before_try.2 = [] /\
   acknowledged before_try.2 = []).
Proof. vm_compute. repeat split. Qed.

(** ** The theorems at concrete inputs *)

(** C2: a parser that exits with status 2 makes [parse_js] raise the
    [ErrorReturnCode] of the library, not [ParseError]; and
    [JavaScript.tokenize] raises [CalledProcessError] on status 1. *)
Lemma exit_status_2_is_not_a_parse_error :
  returncode (node_parse_js (Externals := sample) ["x"%byte]) = 2%Z /\
  parse_js (H := sample) (PyBytes ["x"%byte]) = Raise (ErrorReturnCode 2) /\
  parse_js (H := sample) (PyBytes ["x"%byte]) <> Raise ParseError /\
  returncode (esprima (Externals := sample) [] ["%"%byte]) = 1%Z /\
  (tokenize (H := sample) (PyBytes ["%"%byte]) one_stream).1 = Raise (CalledProcessError 1).
Proof. vm_compute. repeat split. discriminate. Qed.

Lemma parser_exit_status_witness :
  written (H := sample) (PyBytes ["%"%byte]) = Ret ["%"%byte] /\
  parse_js (H := sample) (PyBytes ["%"%byte]) = Raise ParseError.
Proof.
  split; [reflexivity|].
  apply (proj1 (parser_exit_status (H := sample) (PyBytes ["%"%byte]) ["%"%byte]
                  one_stream eq_refl)).
  reflexivity.
Defined.

Lemma template_shape_classified_witness :
  (2 <= length (py "`${"))%nat /\
  stringify_lexeme (H := sample) {| name := py "Template"; value := py "`${" |}
  = symbol "<TEMPLATE-HEAD>".
Proof.
  assert (2 <= length (py "`${"))%nat as Hlen by (vm_compute; lia).
  split; [exact Hlen|].
  apply (proj1 (proj2 (template_shape_classified (H := sample) (py "`${") Hlen)));
    reflexivity.
Defined.

(** C8: a [Template] token, whose kind is in the alphabet, raises when its
    text has none of the four shapes; and the kind [__call__], which is
    outside the alphabet, raises [AttributeError], not the [TypeError] of
    an unhandled kind. *)
Lemma template_in_alphabet_raises :
  in_alphabet (py "Template") = true /\
  stringify_lexeme (H := sample) {| name := py "Template"; value := py "ab" |}
  = Raise (TypeError (py "Unhandled template literal: ab")) /\
  in_alphabet (py "__call__") = false /\
  stringify_lexeme (H := sample) {| name := py "__call__"; value := py "ab" |}
  = Raise (AttributeError (py "name")).
Proof. repeat split. Qed.

Lemma canonicalizer_totality_witness :
  (in_alphabet (py "Comment") = false /\
   py "Comment" <> py "__call__" /\
   object_attr (Externals := sample) (py "Comment") = None) /\
  stringify_lexeme (H := sample) {| name := py "Comment"; value := py "// x" |}
  = Raise (TypeError (py "Unhandled type: Comment")).
Proof.
  assert (py "Comment" <> py "__call__") as Hne by discriminate.
  split; [repeat split; [exact Hne]|].
  apply (proj1 (canonicalizer_totality (H := sample)
                  {| name := py "Comment"; value := py "// x" |}));
    [reflexivity|exact Hne|reflexivity].
Defined.

Lemma unsupported_source_rejected_witness :
  accepted_source (PyInt 3) = false /\
  tokenize (H := sample) (PyInt 3) one_stream = (Raise (ValueError (PyInt 3)), one_stream).
Proof.
  split; [reflexivity|].
  apply (proj1 (unsupported_source_rejected (H := sample) (PyInt 3) one_stream eq_refl)).
Defined.

Lemma foreign_stream_not_closed_witness :
  is_closed (tokenize (H := sample) (PyFile 0) one_stream).2 0 = Some false /\
  (0 <> next_fd one_stream)%nat /\
  is_closed (tokenize (H := sample) (PyBytes ["%"%byte]) one_stream).2 0 = Some false.
Proof.
  assert (0 <> next_fd one_stream)%nat as Hne by discriminate.
  split; [|split; [exact Hne|]].
  - rewrite (proj1 (proj1 (foreign_stream_not_closed (H := sample) 0 one_stream) 0%nat)).
    reflexivity.
  - rewrite (proj1 (proj1 (proj2 (foreign_stream_not_closed (H := sample) 0 one_stream))
                      (PyBytes ["%"%byte]) 0%nat Hne)).
    reflexivity.
Defined.

(** * Further properties of the code *)

(** ** Prefixes and suffixes *)

Lemma startswith_app (p rest : pystr) : startswith (p ++ rest) p = true.
Proof.
  induction p as [|c p IH]; [reflexivity|].
  cbn [app startswith]. rewrite N.eqb_refl. exact IH.
Qed.

Lemma endswith_app (body s : pystr) : endswith (body ++ s) s = true.
Proof. unfold endswith. rewrite reverse_app. apply startswith_app. Qed.

Lemma startswith_prefix (text p : pystr) :
  startswith text p = true <-> p `prefix_of` text.
Proof.
  revert text. induction p as [|c p IH]; intros text.
  - split; [intros _; apply prefix_nil|reflexivity].
  - destruct text as [|t text]; cbn [startswith].
    + split; [discriminate|]. intros Hp. apply prefix_nil_inv in Hp. discriminate.
    + rewrite andb_true_iff, N.eqb_eq, IH. split.
      * intros [-> Hp]. apply prefix_cons. exact Hp.
      * intros Hp. split; [apply prefix_cons_inv_1 in Hp; exact Hp|].
        apply prefix_cons_inv_2 in Hp. exact Hp.
Qed.

Lemma endswith_suffix (text s : pystr) :
  endswith text s = true <-> s `suffix_of` text.
Proof.
  unfold endswith. rewrite startswith_prefix. symmetry. apply suffix_prefix_reverse.
Qed.

(** ** The literals *)

Lemma strip_both_ends (first : N) (body tail : pystr) :
  take (length (drop 1 (first :: body ++ tail)) - length tail)
       (drop 1 (first :: body ++ tail)) = body.
Proof.
  change (drop 1 (first :: body ++ tail)) with (body ++ tail). rewrite length_app.
  replace (length body + length tail - length tail)%nat with (length body) by lia.
  apply take_app_length.
Qed.

(** X1: [clean_literal] refuses a literal of fewer than two characters
    with an [AssertionError], and gives the characters between the first
    and the last one of any longer literal, whatever the two are. *)
Theorem clean_literal_strips (first last : N) (body : pystr) :
  clean_literal [] = Raise AssertionError /\
  clean_literal [first] = Raise AssertionError /\
  clean_literal (first :: body ++ [last]) = Ret body.
Proof.
  split; [reflexivity|]. split; [reflexivity|].
  unfold clean_literal.
  destruct (Nat.ltb_spec (length (first :: body ++ [last])) 2) as [Hshort|_].
  - cbn [length] in Hshort. rewrite length_app in Hshort. cbn in Hshort. lia.
  - f_equal. rewrite (slice_strip _ 0). apply (strip_both_ends first body [last]).
Qed.

(** X2: whatever stands between the delimiters of a template fragment,
    [clean_template] gives exactly that: for a standalone template, a
    head, a tail and a middle, and whatever the first character is. *)
Theorem clean_template_recovers_content (first : N) (body : pystr) :
  clean_template (first :: body ++ py "`") = body /\
  clean_template (first :: body ++ py "${") = body.
Proof.
  unfold clean_template. split.
  - assert (endswith (first :: body ++ py "`") (py "${") = false) as ->.
    { apply endswith_exclusive. apply (endswith_app (first :: body)). }
    rewrite (slice_strip _ 0). apply (strip_both_ends first body (py "`")).
  - assert (endswith (first :: body ++ py "${") (py "${") = true) as ->
        by apply (endswith_app (first :: body)).
    rewrite (slice_strip _ 1). apply (strip_both_ends first body (py "${")).
Qed.

(** ** The labels *)

Lemma parse_hex_zeros (k : nat) (s : pystr) :
  parse_hex 0 (replicate k ZERO ++ s) = parse_hex 0 s.
Proof. induction k as [|k IH]; [reflexivity|exact IH]. Qed.

Lemma parse_label_in_uplus_notation (cp : N) :
  parse_label (in_uplus_notation cp) = Some cp.
Proof.
  unfold parse_label, in_uplus_notation, format_5X, format_04X, pad_left.
  destruct (N.ltb_spec 0xFFFF cp) as [Hbig|Hsmall].
  - pose proof (format_X_length cp) as Hlen.
    replace (5 - length (format_X cp))%nat with 0%nat by lia.
    rewrite startswith_app. cbn [py app drop replicate]. apply parse_hex_format_X.
  - rewrite startswith_app. cbn [py app drop]. rewrite drop_0.
    rewrite parse_hex_zeros. apply parse_hex_format_X.
Qed.

(** X3: a label can be read back, so two code points never share a
    label: the buckets of the aggregate store are one per code point. *)
Theorem in_uplus_notation_injective (a b : N) :
  parse_label (in_uplus_notation a) = Some a /\
  (in_uplus_notation a = in_uplus_notation b -> a = b).
Proof.
  split; [apply parse_label_in_uplus_notation|].
  intros Hsame.
  pose proof (parse_label_in_uplus_notation a) as Ha.
  pose proof (parse_label_in_uplus_notation b) as Hb.
  rewrite Hsame in Ha. congruence.
Qed.

Lemma in_uplus_notation_injective_witness :
  in_uplus_notation 0x41 = in_uplus_notation (0x40 + 1) /\ 0x41%N = (0x40 + 1)%N.
Proof.
  assert (in_uplus_notation 0x41 = in_uplus_notation (0x40 + 1)) as Hsame by reflexivity.
  split; [exact Hsame|].
  exact (proj2 (in_uplus_notation_injective 0x41 (0x40 + 1)) Hsame).
Defined.

(** ** The counts *)

Lemma count_of_increment (label other : pystr) (c : counter) :
  count_of (increment label c) other =
  (count_of c other + if decide (label = other) then 1 else 0)%Z.
Proof.
  unfold count_of, increment. destruct (decide (label = other)) as [->|Hne].
  - rewrite lookup_insert_eq. reflexivity.
  - rewrite lookup_insert_ne by exact Hne. cbn. lia.
Qed.

Lemma count_of_literal (literal : pystr) (c : counter) (label : pystr) :
  count_of (foldl (fun c scalar_value => increment (in_uplus_notation scalar_value) c)
                  c literal) label =
  (count_of c label +
   Z.of_nat (length (filter (fun cp => in_uplus_notation cp = label) literal)))%Z.
Proof.
  revert c. induction literal as [|cp literal IH]; intros c; cbn [foldl].
  - rewrite filter_nil. cbn. lia.
  - rewrite IH, count_of_increment, filter_cons.
    destruct (decide (in_uplus_notation cp = label)); cbn [length]; lia.
Qed.

Lemma count_of_literals (literals : list pystr) (c : counter) (label : pystr) :
  count_of (foldl (fun c literal =>
                     foldl (fun c scalar_value => increment (in_uplus_notation scalar_value) c)
                           c literal)
                  c literals) label =
  (count_of c label +
   Z.of_nat (length (filter (fun cp => in_uplus_notation cp = label) (concat literals))))%Z.
Proof.
  revert c. induction literals as [|literal literals IH]; intros c; cbn [foldl concat].
  - rewrite filter_nil. cbn. lia.
  - rewrite IH, count_of_literal, filter_app, length_app. lia.
Qed.

Lemma foldM_app {A B} (f : A -> B -> result A) (a : A) (l1 l2 : list B) :
  foldM f a (l1 ++ l2) = a' ← foldM f a l1; foldM f a' l2.
Proof.
  revert a. induction l1 as [|x l1 IH]; intros a; cbn [app foldM]; [reflexivity|].
  unfold mbind, result_bind. destruct (f a x) as [a'|e]; [apply IH|reflexivity].
Qed.

(** The loop over the tokens counts the literals in the order in which
    [find_literals] yields them. *)
Lemma count_tokens_lazily (toks : list json) (found : list (list json)) (c : counter) :
  mapM literals_of toks = Ret found ->
  foldM (fun c token => found ← literals_of token; foldM count_literal c found) c toks
  = foldM count_literal c (concat found).
Proof.
  revert found c. induction toks as [|token toks IH]; intros found c; cbn [mapM foldM].
  - intros [= <-]. reflexivity.
  - unfold mbind, result_bind.
    destruct (literals_of token) as [first|e]; [|discriminate].
    destruct (mapM literals_of toks) as [rest|e] eqn:Hrest; [|discriminate].
    intros [= <-]. cbn [concat]. rewrite foldM_app. unfold mbind, result_bind.
    destruct (foldM count_literal c first) as [c'|e]; [|reflexivity].
    apply IH. reflexivity.
Qed.

Lemma count_scalars (items : list json) (c : counter) :
  foldM count_scalar c items =
  match mapM ord items with
  | Ret code_points =>
      Ret (foldl (fun c cp => increment (in_uplus_notation cp) c) c code_points)
  | Raise e => Raise e
  end.
Proof.
  revert c. induction items as [|x items IH]; intros c; cbn [foldM mapM]; [reflexivity|].
  unfold count_scalar, mbind, result_bind.
  destruct (ord x) as [cp|e]; [|reflexivity].
  rewrite IH. destruct (mapM ord items) as [code_points|e]; reflexivity.
Qed.

Lemma count_literals (literals : list json) (c : counter) :
  foldM count_literal c literals =
  match mapM scalars literals with
  | Ret code_points =>
      Ret (foldl (fun c literal =>
                    foldl (fun c cp => increment (in_uplus_notation cp) c) c literal)
                 c code_points)
  | Raise e => Raise e
  end.
Proof.
  revert c. induction literals as [|literal literals IH]; intros c; cbn [foldM mapM];
    [reflexivity|].
  assert (scalars literal = match iterate literal with
                            | Ret items => mapM ord items
                            | Raise e => Raise e
                            end) as -> by reflexivity.
  unfold count_literal, mbind, result_bind.
  destruct (iterate literal) as [items|e]; [|reflexivity].
  rewrite count_scalars. destruct (mapM ord items) as [cps|e]; [|reflexivity].
  rewrite IH. destruct (mapM scalars literals) as [rest|e]; reflexivity.
Qed.

Lemma scalars_of_str (texts : list pystr) : mapM scalars (map JStr texts) = Ret texts.
Proof.
  assert (forall s : pystr, mapM ord (map (fun c => JStr [c]) s) = Ret s) as Hchars.
  { induction s as [|c s IH]; cbn [map mapM]; [reflexivity|].
    unfold mbind, result_bind. cbn [ord]. rewrite IH. reflexivity. }
  induction texts as [|s texts IH]; cbn [map mapM]; [reflexivity|].
  assert (scalars (JStr s) = mapM ord (map (fun c => JStr [c]) s)) as -> by reflexivity.
  unfold mbind, result_bind. rewrite Hchars, IH. reflexivity.
Qed.

(** X4: when [find_literals] finds the literals of the tokens, the loop
    of [count_codepoints_in_literals] takes [ord] of their items in
    order: if every item is a single character, the counter holds, under
    the label of each code point, the number of times it occurs, and
    nothing under a label of no code point of theirs; otherwise the first
    [TypeError] of [ord] is raised.  The items of a [str] literal are
    single characters. *)
Theorem count_codepoints_counts_occurrences (tokens : json) (literals : list json) :
  find_literals tokens = Ret literals ->
  match mapM scalars literals with
  | Ret code_points =>
      exists counts,
        count_codepoints_in_literals tokens = Ret counts /\
        (forall cp, count_of counts (in_uplus_notation cp) = occurrences cp code_points) /\
        (forall label,
            (forall cp, cp ∈ concat code_points -> in_uplus_notation cp <> label) ->
            count_of counts label = 0%Z)
  | Raise e => count_codepoints_in_literals tokens = Raise e
  end /\
  (forall texts, mapM scalars (map JStr texts) = Ret texts).
Proof.
  intros Hfound. split; [|apply scalars_of_str].
  unfold find_literals, mbind, result_bind in Hfound.
  unfold count_codepoints_in_literals, mbind, result_bind.
  destruct (iterate tokens) as [toks|e]; [|discriminate].
  destruct (mapM literals_of toks) as [found|e] eqn:Hall; [|discriminate].
  injection Hfound as <-.
  rewrite (count_tokens_lazily toks found ∅ Hall), count_literals.
  destruct (mapM scalars (concat found)) as [code_points|e]; [|reflexivity].
  eexists. split; [reflexivity|]. split.
  - intros cp. rewrite count_of_literals. unfold occurrences, count_of.
    rewrite lookup_empty. cbn [default]. rewrite Z.add_0_l. do 2 f_equal.
    apply list_filter_iff. intros other. split; [|congruence].
    intros Hlabel.
    pose proof (parse_label_in_uplus_notation other) as Hother.
    pose proof (parse_label_in_uplus_notation cp) as Hcp.
    rewrite Hlabel in Hother. congruence.
  - intros label Hnone. rewrite count_of_literals. unfold count_of.
    rewrite lookup_empty. cbn [default].
    replace (filter (fun cp => in_uplus_notation cp = label) (concat code_points))
      with (@nil N); [reflexivity|].
    symmetry. induction (concat code_points) as [|cp rest IH]; [reflexivity|].
    rewrite filter_cons. destruct (decide (in_uplus_notation cp = label)) as [Hcp|_].
    + destruct (Hnone cp (list_elem_of_here _ _) Hcp).
    + apply IH. intros other Hother. apply Hnone. apply list_elem_of_further. exact Hother.
Qed.

Lemma other_kind_no_literal (token : json) :
  other_kind token = true -> literals_of token = Ret [].
Proof.
  unfold other_kind, literals_of, mbind, result_bind.
  destruct (subscript token (py "type")) as [type|e]; [|discriminate].
  intros Hkind. apply andb_true_iff in Hkind as [Hs Ht].
  apply negb_true_iff in Hs, Ht. rewrite Hs, Ht. reflexivity.
Qed.

Lemma other_kinds_no_literals (toks : list json) :
  forallb other_kind toks = true ->
  exists found, mapM literals_of toks = Ret found /\ concat found = [].
Proof.
  induction toks as [|token toks IH]; cbn [forallb mapM].
  - intros _. exists []. split; reflexivity.
  - intros Hall. apply andb_true_iff in Hall as [Hone Hrest].
    destruct (IH Hrest) as (found & Hfound & Hempty).
    unfold mbind, result_bind.
    rewrite (other_kind_no_literal token Hone), Hfound.
    exists ([] :: found). split; [reflexivity|exact Hempty].
Qed.

(** X5: tokens that are neither strings nor templates (keywords,
    numbers, punctuators, ...) count for nothing: the counter is empty,
    whatever their text is. *)
Theorem no_literals_no_counts (toks : list json) :
  forallb other_kind toks = true ->
  find_literals (JArr toks) = Ret [] /\
  count_codepoints_in_literals (JArr toks) = Ret ∅.
Proof.
  intros Hall. destruct (other_kinds_no_literals toks Hall) as (found & Hfound & Hempty).
  assert (find_literals (JArr toks) = Ret []) as Hnone.
  { unfold find_literals, iterate, mbind, result_bind. rewrite Hfound, Hempty. reflexivity. }
  split; [exact Hnone|].
  unfold count_codepoints_in_literals, iterate, mbind, result_bind.
  rewrite (count_tokens_lazily toks found ∅ Hfound), Hempty. reflexivity.
Qed.

(** The tokens of [void 0;]. *)
Lemma no_literals_no_counts_witness :
  let toks := [ JObj [(py "type", JStr (py "Keyword")); (py "value", JStr (py "void"))];
                JObj [(py "type", JStr (py "Numeric")); (py "value", JStr (py "0"))];
                JObj [(py "type", JStr (py "Punctuator")); (py "value", JStr (py ";"))] ] in
  forallb other_kind toks = true /\
  count_codepoints_in_literals (JArr toks) = Ret ∅.
Proof.
  intros toks. assert (forallb other_kind toks = true) as Hall by reflexivity.
  split; [exact Hall|]. exact (proj2 (no_literals_no_counts toks Hall)).
Defined.

Lemma count_codepoints_counts_occurrences_witness :
  let tokens := JArr [ JObj [(py "type", JStr (py "String"));
                             (py "value", JStr (py "'aba'"))] ] in
  find_literals tokens = Ret [JStr (py "aba")] /\
  exists counts,
    count_codepoints_in_literals tokens = Ret counts /\
    count_of counts (in_uplus_notation 0x61) = occurrences 0x61 [py "aba"].
Proof.
  intros tokens.
  assert (find_literals tokens = Ret [JStr (py "aba")]) as Hfound by reflexivity.
  split; [exact Hfound|].
  pose proof (proj1 (count_codepoints_counts_occurrences tokens [JStr (py "aba")] Hfound))
    as Hcount.
  change (mapM scalars [JStr (py "aba")]) with (Ret [py "aba"] : result (list pystr)) in Hcount.
  destruct Hcount as (counts & Hcounts & Hocc & _).
  exists counts. split; [exact Hcounts|apply Hocc].
Defined.

(** ** The vocabulary *)

Section VocabularyProperties.

Context `{Externals}.

(** X6: apart from the three kinds that are returned as they are
    ([Boolean], [Keyword], [Punctuator]), a token of the alphabet that
    gets a result gets one of nine symbols, whatever its text: the
    vocabulary stays finite when identifiers and literals are not. *)
Theorem canonical_vocabulary_finite (token : Lexeme) (v : pyvalue) :
  in_alphabet (name token) = true ->
  verbatim_kind (name token) = false ->
  stringify_lexeme token = Ret v ->
  exists s, v = PyStr s /\ s ∈ fixed_symbols.
Proof.
  destruct token as [kind text]. cbn [name].
  intros Hin Hverbatim Hresult. apply in_alphabet_cases in Hin.
  destruct Hin as [-> | [-> | [-> | [-> | [-> | [-> | [-> | [-> | ->]]]]]]]];
    try discriminate Hverbatim.
  1-5: (cbv in Hresult; injection Hresult as <-; eexists; split; [reflexivity|];
        unfold fixed_symbols; set_solver).
  rewrite (stringify_lexeme_method _ StringifyLexeme_Template) in Hresult by reflexivity.
  cbn [value] in Hresult. unfold StringifyLexeme_Template in Hresult.
  unfold fixed_symbols.
  repeat case_match; try discriminate; unfold symbol in Hresult;
    injection Hresult as <-; eexists; (split; [reflexivity|set_solver]).
Qed.

End VocabularyProperties.

Lemma canonical_vocabulary_finite_witness :
  let token := {| name := py "Identifier"; value := py "x" |} in
  (in_alphabet (name token) = true /\ verbatim_kind (name token) = false /\
   stringify_lexeme (H := sample) token = Ret (PyStr (py "<IDENTIFIER>"))) /\
  exists s, PyStr (py "<IDENTIFIER>") = PyStr s /\ s ∈ fixed_symbols.
Proof.
  intros token. split; [repeat split|].
  exact (canonical_vocabulary_finite (H := sample) token (PyStr (py "<IDENTIFIER>"))
           eq_refl eq_refl eq_refl).
Defined.

(** ** The worker when no signal arrives *)

Lemma count_of_zincrby (agg : counter) (command : pystr * Z) (label : pystr) :
  count_of (zincrby agg command) label =
  (count_of agg label + if decide (command.1 = label) then command.2 else 0)%Z.
Proof.
  unfold zincrby, count_of. destruct (decide (command.1 = label)) as [->|Hne].
  - rewrite lookup_insert_eq. reflexivity.
  - rewrite lookup_insert_ne by exact Hne. cbn. lia.
Qed.

Lemma count_of_execute (commands : list (pystr * Z)) (agg : counter) (label : pystr) :
  count_of (execute commands agg) label = (count_of agg label + amount_for label commands)%Z.
Proof.
  unfold execute. revert agg.
  induction commands as [|command commands IH]; intros agg; cbn [foldl amount_for].
  - lia.
  - rewrite IH, count_of_zincrby. lia.
Qed.

Lemma amount_for_Permutation (label : pystr) (commands shuffled : list (pystr * Z)) :
  commands ≡ₚ shuffled -> amount_for label commands = amount_for label shuffled.
Proof.
  induction 1 as [|x l l' _ IH|x y l|l l' l'' _ IH1 _ IH2]; cbn [amount_for]; lia.
Qed.

Lemma amount_for_counter (counts : counter) (label : pystr) :
  amount_for label (map_to_list counts) = count_of counts label.
Proof.
  induction counts as [|other amount counts Hfresh IH] using map_ind.
  - rewrite map_to_list_empty. reflexivity.
  - rewrite (amount_for_Permutation label _ _ (map_to_list_insert counts other amount Hfresh)).
    cbn [amount_for fst snd]. rewrite IH. unfold count_of.
    destruct (decide (other = label)) as [->|Hne].
    + rewrite lookup_insert_eq, Hfresh. cbn. lia.
    + rewrite lookup_insert_ne by exact Hne. lia.
Qed.

(** The pipeline adds the counter label by label, in whatever order the
    commands are queued. *)
Lemma count_of_commands (commands : list (pystr * Z)) (agg counts : counter)
    (label : pystr) :
  commands ≡ₚ map_to_list counts ->
  count_of (execute commands agg) label = (count_of agg label + count_of counts label)%Z.
Proof.
  intros Hperm.
  rewrite count_of_execute, (amount_for_Permutation label _ _ Hperm), amount_for_counter.
  reflexivity.
Qed.

Lemma count_of_merged (agg counts : counter) (label : pystr) :
  count_of (execute (most_common counts) agg) label =
  (count_of agg label + count_of counts label)%Z.
Proof. apply count_of_commands. apply merge_sort_Permutation. Qed.

Lemma count_codepoints_raises (tokens : json) (e : exn) :
  count_codepoints_in_literals tokens = Raise e ->
  e <> KeyboardInterrupt /\ e <> ParseError.
Proof. apply count_codepoints_ordinary. Qed.

Section QuietWorker.

Context `{Externals}.

Ltac fields :=
  cbn [queue signals sources parsed char_count acknowledged errors failures history
       record set_parsed set_char_count set_acknowledged set_errors set_failures
       set_queue set_signals].

Ltac quiet w :=
  destruct w as [q acked errs srcs prsd fails agg hist sigs];
  cbn [signals sources queue] in *; subst;
  unfold process, attempt, db_get_source, db_add_parsed_source, insert_count,
    db_set_failure, worker_acknowledge, aborted_push, logger, call, pure,
    mbind, M_bind, mret, M_ret;
  cbn [signals sources queue acknowledged errors parsed failures char_count history
       record set_parsed set_char_count set_acknowledged set_errors set_failures
       set_queue set_signals].

(** X7: with no signal, an item whose source parses is stored under its
    hash, its counts are added to the aggregate label by label, and it is
    acknowledged, in that order; the error queue and the failures are left
    as they are. *)
Theorem process_success (file_hash : pystr) (w : world) (src : pyvalue)
    (tokens ast : json) (counts : counter) :
  signals w = [] ->
  sources w !! file_hash = Some src ->
  parse_js src = Ret (tokens, ast) ->
  count_codepoints_in_literals tokens = Ret counts ->
  exists w',
    process file_hash w = (Ret Continue, w') /\
    parsed w' !! file_hash = Some (tokens, ast) /\
    (forall label,
        count_of (char_count w') label
        = (count_of (char_count w) label + count_of counts label)%Z) /\
    acknowledged w' = acknowledged w ++ [file_hash] /\
    errors w' = errors w /\
    failures w' = failures w /\
    history w' = history w ++ [StoredParse file_hash; MergedCounts counts;
                               Acknowledged file_hash].
Proof.
  intros Hquiet Hsrc Hparse Hcount. quiet w.
  rewrite Hsrc, Hparse. cbn [signals]. rewrite Hcount.
  eexists. split; [reflexivity|].
  fields.
  split; [apply lookup_insert_eq|]. split; [intros label; apply count_of_merged|].
  rewrite <- !app_assoc. repeat split.
Qed.

(** X8: with no signal, an item whose source is a syntax error is
    recorded as a failure and acknowledged; nothing is stored for it,
    nothing is counted, and the error queue is left as it is. *)
Theorem process_syntax_error (file_hash : pystr) (w : world) (src : pyvalue) :
  signals w = [] ->
  sources w !! file_hash = Some src ->
  parse_js src = Raise ParseError ->
  exists w',
    process file_hash w = (Ret Continue, w') /\
    file_hash ∈ failures w' /\
    acknowledged w' = acknowledged w ++ [file_hash] /\
    errors w' = errors w /\
    parsed w' = parsed w /\
    char_count w' = char_count w /\
    history w' = history w ++ [RecordedFailure file_hash; Acknowledged file_hash].
Proof.
  intros Hquiet Hsrc Hparse. quiet w.
  rewrite Hsrc, Hparse.
  eexists. split; [reflexivity|].
  fields.
  split; [set_solver|]. rewrite <- !app_assoc. repeat split.
Qed.

(** X9: with no signal, an item whose source is missing, or whose parse
    fails with anything but a syntax error, is published to the error
    queue and acknowledged all the same, and the loop goes on; it is not
    recorded as a failure. *)
Theorem process_fault (file_hash : pystr) (w : world) :
  signals w = [] ->
  (sources w !! file_hash = None \/
   exists src e, sources w !! file_hash = Some src /\ parse_js src = Raise e /\
                 e <> KeyboardInterrupt /\ e <> ParseError) ->
  exists w',
    process file_hash w = (Ret Continue, w') /\
    errors w' = errors w ++ [file_hash] /\
    acknowledged w' = acknowledged w ++ [file_hash] /\
    failures w' = failures w /\
    parsed w' = parsed w /\
    history w' = history w ++ [Published file_hash; Acknowledged file_hash].
Proof.
  intros Hquiet [Hmissing|(src & e & Hsrc & Hparse & Hki & Hpe)]; quiet w.
  - rewrite Hmissing.
    eexists. split; [reflexivity|].
    fields. rewrite <- !app_assoc. repeat split.
  - rewrite Hsrc, Hparse.
    destruct e; try contradiction;
      (eexists; split; [reflexivity|];
       fields; rewrite <- !app_assoc; repeat split).
Qed.

(** X10: with no signal, when the profiler fails on the tokens (a string
    token of fewer than two characters, a token without [type]), the
    parse is already stored: the item is stored, published to the error
    queue and acknowledged, and nothing is added to the aggregate. *)
Theorem process_profiler_fault (file_hash : pystr) (w : world) (src : pyvalue)
    (tokens ast : json) (e : exn) :
  signals w = [] ->
  sources w !! file_hash = Some src ->
  parse_js src = Ret (tokens, ast) ->
  count_codepoints_in_literals tokens = Raise e ->
  exists w',
    process file_hash w = (Ret Continue, w') /\
    parsed w' !! file_hash = Some (tokens, ast) /\
    errors w' = errors w ++ [file_hash] /\
    acknowledged w' = acknowledged w ++ [file_hash] /\
    char_count w' = char_count w /\
    history w' = history w ++ [StoredParse file_hash; Published file_hash;
                               Acknowledged file_hash].
Proof.
  intros Hquiet Hsrc Hparse Hcount.
  destruct (count_codepoints_raises tokens e Hcount) as [Hki Hpe]. quiet w.
  rewrite Hsrc, Hparse. cbn [signals]. rewrite Hcount.
  destruct e; try contradiction;
    (eexists; split; [reflexivity|];
     fields;
     split; [apply lookup_insert_eq|]; rewrite <- !app_assoc; repeat split).
Qed.

End QuietWorker.

Section QuietLoop.

Context `{Externals}.

Ltac fields :=
  cbn [queue signals sources parsed char_count acknowledged errors failures history
       record set_parsed set_char_count set_acknowledged set_errors set_failures
       set_queue set_signals].

Ltac unfold_worker :=
  unfold process, attempt, db_get_source, db_add_parsed_source, insert_count,
    db_set_failure, worker_acknowledge, aborted_push, logger, call, pure,
    mbind, M_bind, mret, M_ret.

(** With no signal the [try] statement lets no exception through: it
    acknowledges the item and continues, or (when the interrupt comes from
    inside the parse) publishes it and breaks. *)
Lemma process_quiet (file_hash : pystr) (w : world) :
  signals w = [] ->
  exists c w',
    process file_hash w = (Ret c, w') /\
    signals w' = [] /\
    queue w' = queue w /\
    ((c = Continue /\ acknowledged w' = acknowledged w ++ [file_hash] /\
      (errors w' = errors w \/ errors w' = errors w ++ [file_hash])) \/
     (c = Break /\ acknowledged w' = acknowledged w /\
      errors w' = errors w ++ [file_hash])).
Proof.
  intros Hquiet.
  destruct w as [q acked errs srcs prsd fails agg hist sigs].
  cbn [signals] in Hquiet. subst sigs. unfold_worker. fields.
  destruct (srcs !! file_hash) as [src|].
  2: { do 2 eexists. split; [reflexivity|]. fields. eauto 10. }
  destruct (parse_js src) as [[tokens ast]|e].
  2: { destruct e; do 2 eexists; (split; [reflexivity|]); fields; eauto 10. }
  fields.
  destruct (count_codepoints_in_literals tokens) as [counts|e].
  - do 2 eexists. split; [reflexivity|]. fields. eauto 10.
  - destruct e; do 2 eexists; (split; [reflexivity|]); fields; eauto 10.
Qed.

(** X11: an item of the queue that is not valid UTF-8 ends [main] with
    the exception of the decoder: the item has left the queue and is
    neither published to the error queue nor acknowledged. *)
Theorem undecodable_item_escapes (w : world) (item : pybytes) (rest : list pybytes)
    (e : exn) :
  signals w = [] ->
  queue w = item :: rest ->
  decode_utf8 item = Raise e ->
  exists w',
    main w = (Raise e, w') /\
    queue w' = rest /\
    errors w' = errors w /\
    acknowledged w' = acknowledged w /\
    history w' = history w ++ [Dequeued item].
Proof.
  intros Hquiet Hqueue Hdecode.
  destruct w as [q acked errs srcs prsd fails agg hist sigs].
  cbn [signals queue] in *. subst.
  unfold main, main_loop, iteration, worker_get, logger, call, pure, mbind, M_bind, mret, M_ret.
  fields. cbn [length]. fields. rewrite Hdecode.
  eexists. split; [reflexivity|]. fields. repeat split.
Qed.

(** X12: a [KeyboardInterrupt] delivered in the first [worker.get]
    ends [main] by [break].  When it comes before an item is taken,
    nothing changes: no item leaves the queue, and no store or queue is
    written.  When it comes after the item was taken, the item has left
    the queue, and it is neither published to the error queue nor
    acknowledged. *)
Theorem interrupt_in_worker_get (w : world) :
  (signals w = [Quiet; Interrupt] ->
   main w = (Ret Broke, set_signals [] w)) /\
  (signals w = [Quiet; InterruptLate] ->
   main w = (Ret Broke,
             match queue w with
             | [] => set_signals [] w
             | item :: rest => record (Dequeued item) (set_queue rest (set_signals [] w))
             end)).
Proof.
  split; intros Hsignals;
    destruct w as [q acked errs srcs prsd fails agg hist sigs];
    cbn [signals] in Hsignals; subst;
    unfold main, main_loop, iteration, worker_get, logger, call, pure,
      mbind, M_bind, mret, M_ret; fields; cbn [length]; fields.
  - reflexivity.
  - destruct q as [|item rest]; fields; reflexivity.
Qed.

Lemma iteration_quiet (w : world) (item : pybytes) (rest : list pybytes)
    (file_hash : pystr) :
  signals w = [] ->
  queue w = item :: rest ->
  decode_utf8 item = Ret file_hash ->
  exists c w',
    iteration w = (Ret c, w') /\
    signals w' = [] /\
    queue w' = rest /\
    ((c = Continue /\ acknowledged w' = acknowledged w ++ [file_hash] /\
      (errors w' = errors w \/ errors w' = errors w ++ [file_hash])) \/
     (c = Break /\ acknowledged w' = acknowledged w /\
      errors w' = errors w ++ [file_hash])).
Proof.
  intros Hquiet Hqueue Hdecode.
  destruct w as [q acked errs srcs prsd fails agg hist sigs].
  cbn [signals queue] in *. subst.
  unfold iteration, worker_get, logger, call, pure, mbind, M_bind, mret, M_ret. fields.
  rewrite Hdecode. fields.
  match goal with |- context [process file_hash ?w0] =>
    destruct (process_quiet file_hash w0 eq_refl) as (c & w' & Hrun & Hs & Hq & Hcases) end.
  exists c, w'. split; [exact Hrun|]. split; [exact Hs|]. split; [exact Hq|]. exact Hcases.
Qed.

Lemma iteration_idle (w : world) :
  signals w = [] -> queue w = [] -> iteration w = (Ret Wait, w).
Proof.
  intros Hquiet Hqueue.
  destruct w as [q acked errs srcs prsd fails agg hist sigs].
  cbn [signals queue] in *. subst. reflexivity.
Qed.

Lemma main_loop_quiet (fuel : nat) (w : world) :
  signals w = [] ->
  Forall (fun item => returns (decode_utf8 item) = true) (queue w) ->
  (length (queue w) < fuel)%nat ->
  exists r w',
    main_loop fuel w = (Ret r, w') /\
    (r = Broke \/ (r = Waiting /\ queue w' = [])) /\
    (exists acked errs, acknowledged w' = acknowledged w ++ acked /\
                        errors w' = errors w ++ errs) /\
    (forall item file_hash,
        item ∈ queue w -> decode_utf8 item = Ret file_hash ->
        accounted_for w' item file_hash).
Proof.
  revert w. induction fuel as [|fuel IH]; intros w Hquiet Hdecodes Hfuel; [lia|].
  cbn [main_loop]. unfold mbind, M_bind.
  destruct (queue w) as [|item rest] eqn:Hqueue.
  - rewrite (iteration_idle w Hquiet Hqueue). unfold mret, M_ret.
    exists Waiting, w. split; [reflexivity|]. split; [right; split; [reflexivity|exact Hqueue]|].
    split; [exists [], []; rewrite !app_nil_r; split; reflexivity|].
    intros other file_hash Hin. apply elem_of_nil in Hin. destruct Hin.
  - apply Forall_cons in Hdecodes as [Hitem Hrest].
    destruct (decode_utf8 item) as [file_hash|e] eqn:Hdecode; [|discriminate].
    destruct (iteration_quiet w item rest file_hash Hquiet Hqueue Hdecode)
      as (c & w1 & Hrun & Hs1 & Hq1 & Hcases).
    rewrite Hrun.
    destruct Hcases as [(-> & Hacked & Herrs)|(-> & Hacked & Herrs)].
    + rewrite <- Hq1 in Hrest.
      destruct (IH w1 Hs1 Hrest) as (r & w' & Hloop & Hend & (acked & errs & Ha & He) & Hall).
      { rewrite Hq1. cbn [length] in Hfuel. lia. }
      exists r, w'. split; [exact Hloop|]. split; [exact Hend|]. split.
      * destruct Herrs as [Herrs|Herrs]; rewrite Ha, He, Hacked, Herrs, <- ?app_assoc; eauto.
      * intros other other_hash Hin Hother.
        apply elem_of_cons in Hin as [->|Hin].
        -- right. left. rewrite Ha, Hacked. assert (other_hash = file_hash) as -> by congruence.
           rewrite !elem_of_app, list_elem_of_singleton. tauto.
        -- apply Hall; [rewrite Hq1; exact Hin|exact Hother].
    + unfold mret, M_ret. exists Broke, w1. split; [reflexivity|]. split; [left; reflexivity|].
      split; [exists [], [file_hash]; rewrite app_nil_r; split; assumption|].
      intros other other_hash Hin Hother.
      apply elem_of_cons in Hin as [->|Hin].
      * right. right. rewrite Herrs. assert (other_hash = file_hash) as -> by congruence.
        rewrite elem_of_app, list_elem_of_singleton. tauto.
      * left. rewrite Hq1. exact Hin.
Qed.

(** X13: with no signal and a queue of items that decode, [main] raises
    nothing, and every item of the queue is accounted for when it ends:
    it is still in the queue, or acknowledged, or in the error queue.  When
    [main] ends waiting, the queue is empty. *)
Theorem quiet_run_loses_nothing (w : world) :
  signals w = [] ->
  Forall (fun item => returns (decode_utf8 item) = true) (queue w) ->
  exists r w',
    main w = (Ret r, w') /\
    (r = Broke \/ (r = Waiting /\ queue w' = [])) /\
    (forall item file_hash,
        item ∈ queue w -> decode_utf8 item = Ret file_hash ->
        accounted_for w' item file_hash).
Proof.
  intros Hquiet Hdecodes.
  destruct (main_loop_quiet (S (length (queue w))) w Hquiet Hdecodes)
    as (r & w' & Hloop & Hend & _ & Hall); [lia|].
  exists r, w'. split; [|split; assumption].
  unfold main, mbind, M_bind, logger, call, mret, M_ret. rewrite Hquiet. exact Hloop.
Qed.

(** X14: with no signal, the commands that [insert_count] queues and
    executes add the counter to the aggregate label by label and touch
    nothing else; the order in which the entries are queued does not
    matter, and two counters reach the same aggregate in either order. *)
Theorem insert_count_adds (counts others : counter) (w : world) :
  signals w = [] ->
  exists w',
    insert_count counts w = (Ret (), w') /\
    char_count w' = execute (most_common counts) (char_count w) /\
    (forall label,
        count_of (char_count w') label
        = (count_of (char_count w) label + count_of counts label)%Z) /\
    (forall commands label,
        commands ≡ₚ most_common counts ->
        count_of (execute commands (char_count w)) label
        = count_of (char_count w') label) /\
    parsed w' = parsed w /\ failures w' = failures w /\
    queue w' = queue w /\ errors w' = errors w /\ acknowledged w' = acknowledged w /\
    (forall label,
        count_of (char_count (insert_count others w').2) label
        = count_of (char_count (insert_count counts (insert_count others w).2).2) label).
Proof.
  intros Hquiet.
  destruct w as [q acked errs srcs prsd fails agg hist sigs].
  cbn [signals] in Hquiet. subst.
  unfold insert_count, call. fields.
  eexists. split; [reflexivity|]. fields.
  split; [reflexivity|].
  split; [intros label; apply count_of_merged|].
  split.
  { intros commands label Hperm. rewrite count_of_merged.
    apply count_of_commands. rewrite Hperm. apply merge_sort_Permutation. }
  repeat split.
  intros label. cbn [snd]. fields. cbn [snd]. fields. rewrite !count_of_merged. lia.
Qed.

End QuietLoop.

(** ** The parser of the worker *)

Section ParserProperties.

Context `{Externals}.

(** X15: as long as the codec and the JSON decoder raise no [ParseError]
    of their own, [parse_js] raises [ParseError] exactly when the parser
    was run and exited with status 1. *)
Theorem parse_error_iff_status_1 (src : pyvalue) :
  (forall s, encode_utf8 s <> Raise ParseError) ->
  (forall b, decode_utf8 b <> Raise ParseError) ->
  (forall text, json_loads text <> Raise ParseError) ->
  parse_js src = Raise ParseError <->
  exists contents,
    written src = Ret contents /\ returncode (node_parse_js contents) = 1%Z.
Proof.
  intros Hencode Hdecode Hloads. unfold parse_js, mbind, result_bind. split.
  - destruct (written src) as [contents|e] eqn:Hwritten.
    2: { intros [= ->]. unfold written in Hwritten.
         destruct src; try discriminate. destruct (Hencode _ Hwritten). }
    intros Hraise. exists contents. split; [reflexivity|].
    unfold sh_result in Hraise.
    destruct (Z.eqb_spec (returncode (node_parse_js contents)) 0) as [Hzero|Hnonzero].
    + exfalso.
      pose proof (Hdecode (stdout (node_parse_js contents))) as Hd.
      destruct (decode_utf8 (stdout (node_parse_js contents))) as [text|e]; [|congruence].
      pose proof (Hloads text) as Hl.
      destruct (json_loads text) as [decoded|e]; [|congruence].
      pose proof (subscript_not_parse_error decoded (py "tokens")) as Ht.
      destruct (subscript decoded (py "tokens")) as [tokens|e]; [|congruence].
      pose proof (subscript_not_parse_error decoded (py "ast")) as Ha.
      destruct (subscript decoded (py "ast")) as [ast|e]; [discriminate|congruence].
    + destruct (0 <? returncode (node_parse_js contents))%Z; [|discriminate].
      destruct (returncode (node_parse_js contents)) as [|[p|p|]|p];
        try discriminate; reflexivity.
  - intros (contents & -> & Hone). unfold sh_result. rewrite Hone. reflexivity.
Qed.

(** X16: when the parser exits with status 0 and its output decodes to a
    JSON object, [parse_js] returns the values under [tokens] and [ast];
    an object without [tokens], or with [tokens] and without [ast],
    raises [KeyError] with the missing key, which is no [ParseError]. *)
Theorem parse_js_payload (src : pyvalue) (contents : pybytes) (text : pystr)
    (fields : list (pystr * json)) :
  written src = Ret contents ->
  returncode (node_parse_js contents) = 0%Z ->
  decode_utf8 (stdout (node_parse_js contents)) = Ret text ->
  json_loads text = Ret (JObj fields) ->
  parse_js src =
  match assoc (py "tokens") fields, assoc (py "ast") fields with
  | Some tokens, Some ast => Ret (tokens, ast)
  | Some _, None => Raise (KeyError (py "ast"))
  | None, _ => Raise (KeyError (py "tokens"))
  end.
Proof.
  intros Hwritten Hzero Hdecode Hloads.
  unfold parse_js, mbind, result_bind, sh_result.
  rewrite Hwritten, Hzero. cbn [Z.eqb]. rewrite Hdecode, Hloads.
  unfold subscript.
  destruct (assoc (py "tokens") fields), (assoc (py "ast") fields); reflexivity.
Qed.

End ParserProperties.

(** ** The adapter on [str] and [bytes] *)

Lemma mapM_length {A B} (f : A -> result B) (l : list A) (out : list B) :
  mapM f l = Ret out -> length out = length l.
Proof.
  revert out. induction l as [|x l IH]; intros out; cbn [mapM].
  - intros [= <-]. reflexivity.
  - unfold mbind, result_bind. destruct (f x) as [y|e]; [|discriminate].
    destruct (mapM f l) as [ys|e]; [|discriminate].
    intros [= <-]. cbn [length]. f_equal. apply IH. reflexivity.
Qed.

Section AdapterRuns.

Context `{Externals}.

Ltac run_adapter :=
  unfold tokenize, check_syntax, with_SafeSourceFile, SafeSourceFile_enter,
    SafeSourceFile_init, synthetic_file, _tokenize, subprocess_run, SafeSourceFile_exit,
    close, lift, mbind, io_bind, mret, io_ret;
  cbn [source files next_fd spawned _owned _foreign];
  rewrite ?lookup_insert_eq; cbn [closed offset data]; rewrite ?drop_0.

Lemma with_str_is_with_bytes {A} (s : pystr) (contents : pybytes)
    (body : nat -> io A) (w : os) :
  encode_utf8 s = Ret contents ->
  with_SafeSourceFile (PyStr s) body w = with_SafeSourceFile (PyBytes contents) body w.
Proof.
  intros Hencode.
  unfold with_SafeSourceFile, SafeSourceFile_enter, SafeSourceFile_init,
    mbind, io_bind, mret, io_ret.
  cbn [source _owned _foreign].
  replace (synthetic_file (PyStr s) w) with (synthetic_file (PyBytes contents) w)
    by (unfold synthetic_file; rewrite Hencode; reflexivity).
  destruct (synthetic_file (PyBytes contents) w) as [[fd|e] w1]; reflexivity.
Qed.

(** X17: a [str] is handled as the bytes of its UTF-8 encoding: by
    [tokenize], by [check_syntax] and by [parse_js], result and effects
    alike. *)
Theorem str_source_is_its_encoding (s : pystr) (contents : pybytes) (w : os) :
  encode_utf8 s = Ret contents ->
  tokenize (PyStr s) w = tokenize (PyBytes contents) w /\
  check_syntax (PyStr s) w = check_syntax (PyBytes contents) w /\
  parse_js (PyStr s) = parse_js (PyBytes contents).
Proof.
  intros Hencode. split; [|split].
  - unfold tokenize, mbind, io_bind.
    rewrite (with_str_is_with_bytes s contents _ w Hencode). reflexivity.
  - unfold check_syntax, mbind, io_bind.
    rewrite (with_str_is_with_bytes s contents _ w Hencode). reflexivity.
  - unfold parse_js, written. rewrite Hencode. reflexivity.
Qed.

(** X18: on a [bytes] source, [tokenize] and [check_syntax] each run the
    parser exactly once, with the whole source on its standard input,
    whatever its exit status; they take one new descriptor and leave every
    other file object as it was. *)
Theorem adapter_runs_parser_once (contents : pybytes) (w : os) :
  let after_tokenize := (tokenize (PyBytes contents) w).2 in
  let after_check := (check_syntax (PyBytes contents) w).2 in
  spawned after_tokenize = spawned w ++ [[]] /\
  spawned after_check = spawned w ++ [[py "--check-syntax"]] /\
  next_fd after_tokenize = S (next_fd w) /\
  next_fd after_check = S (next_fd w) /\
  (forall fd, fd <> next_fd w ->
              files after_tokenize !! fd = files w !! fd /\
              files after_check !! fd = files w !! fd).
Proof.
  run_adapter. cbn [andb].
  destruct (negb (returncode (esprima [] contents) =? 0)%Z);
    cbn [snd fst files next_fd spawned _owned];
    (repeat split; try reflexivity;
     rewrite lookup_alter_ne, !lookup_insert_ne by congruence; reflexivity).
Qed.

(** X19: [check_syntax] raises nothing on a [bytes] source: it returns
    whether the parser exited with status 0; [tokenize] on the same
    source raises [CalledProcessError] unless the status is 0, and then
    gives one token for each item of the JSON list the parser printed. *)
Theorem check_syntax_reports_status (contents : pybytes) (w : os) :
  (check_syntax (PyBytes contents) w).1
  = Ret (returncode (esprima [py "--check-syntax"] contents) =? 0)%Z /\
  (forall text toks,
      returncode (esprima [] contents) = 0%Z ->
      decode_utf8 (stdout (esprima [] contents)) = Ret text ->
      json_loads text = Ret (JArr toks) ->
      (tokenize (PyBytes contents) w).1 = mapM from_esprima_format toks /\
      forall out, (tokenize (PyBytes contents) w).1 = Ret out ->
                  length out = length toks).
Proof.
  split.
  - run_adapter. reflexivity.
  - intros text toks Hzero Hdecode Hloads.
    assert ((tokenize (PyBytes contents) w).1 = mapM from_esprima_format toks) as Hrun.
    { run_adapter. rewrite Hzero. cbn [andb negb Z.eqb fst]. cbn [stdout].
      unfold result_bind. rewrite Hdecode, Hloads. reflexivity. }
    split; [exact Hrun|]. intros out Hout. rewrite Hrun in Hout.
    apply (mapM_length _ _ _ Hout).
Qed.

End AdapterRuns.

(** ** The tokens of the parser *)

(** X20: [from_esprima_format] returns a token exactly for an object
    that has [type], [value] and [loc], with [line] and [column] under the
    [start] and the [end] of [loc]: the token holds those six values,
    wherever the keys stand and whatever else the object holds.  An object
    without [loc] raises [KeyError] for [loc] whatever else it lacks, and a
    token that is no object raises [TypeError]. *)
Theorem from_esprima_format_reads (token : json) :
  (forall fields type val loc first last start_line start_column end_line end_column,
      token = JObj fields ->
      assoc (py "type") fields = Some type ->
      assoc (py "value") fields = Some val ->
      assoc (py "loc") fields = Some loc ->
      subscript loc (py "start") = Ret first ->
      subscript first (py "line") = Ret start_line ->
      subscript first (py "column") = Ret start_column ->
      subscript loc (py "end") = Ret last ->
      subscript last (py "line") = Ret end_line ->
      subscript last (py "column") = Ret end_column ->
      from_esprima_format token
      = Ret {| tok_name := type; tok_value := val;
               tok_start := {| line := start_line; column := start_column |};
               tok_end := {| line := end_line; column := end_column |} |}) /\
  (forall t,
      from_esprima_format token = Ret t ->
      exists fields loc first last,
        token = JObj fields /\
        assoc (py "type") fields = Some (tok_name t) /\
        assoc (py "value") fields = Some (tok_value t) /\
        assoc (py "loc") fields = Some loc /\
        subscript loc (py "start") = Ret first /\
        subscript first (py "line") = Ret (line (tok_start t)) /\
        subscript first (py "column") = Ret (column (tok_start t)) /\
        subscript loc (py "end") = Ret last /\
        subscript last (py "line") = Ret (line (tok_end t)) /\
        subscript last (py "column") = Ret (column (tok_end t))) /\
  (forall fields,
      token = JObj fields -> assoc (py "loc") fields = None ->
      from_esprima_format token = Raise (KeyError (py "loc"))) /\
  ((forall fields, token <> JObj fields) ->
   exists msg, from_esprima_format token = Raise (TypeError msg)).
Proof.
  split; [|split; [|split]].
  - intros fields type val loc first last sl sc el ec -> Htype Hval Hloc Hs Hsl Hsc He Hel Hec.
    unfold from_esprima_format, mbind, result_bind. cbn [subscript].
    rewrite Hloc, Htype, Hval, Hs, Hsl, Hsc, He, Hel, Hec. reflexivity.
  - intros t. unfold from_esprima_format, mbind, result_bind.
    destruct token as [| | | | |fields]; try discriminate. cbn [subscript].
    destruct (assoc (py "loc") fields) as [loc|] eqn:Hloc; [|discriminate].
    destruct (assoc (py "type") fields) as [type|] eqn:Htype; [|discriminate].
    destruct (assoc (py "value") fields) as [val|] eqn:Hval; [|discriminate].
    destruct (subscript loc (py "start")) as [first|e] eqn:Hs; [|discriminate].
    destruct (subscript first (py "line")) as [sl|e] eqn:Hsl; [|discriminate].
    destruct (subscript first (py "column")) as [sc|e] eqn:Hsc; [|discriminate].
    destruct (subscript loc (py "end")) as [last|e] eqn:He; [|discriminate].
    destruct (subscript last (py "line")) as [el|e] eqn:Hel; [|discriminate].
    destruct (subscript last (py "column")) as [ec|e] eqn:Hec; [|discriminate].
    intros [= <-]. exists fields, loc, first, last.
    cbn [tok_name tok_value tok_start tok_end line column].
    repeat split; assumption.
  - intros fields -> Hmissing. unfold from_esprima_format, mbind, result_bind.
    cbn [subscript]. rewrite Hmissing. reflexivity.
  - intros Hother. unfold from_esprima_format, mbind, result_bind.
    destruct token as [| | | | |fields]; try (eexists; reflexivity).
    destruct (Hother fields eq_refl).
Qed.

(** ** Summaries and vocabularies *)

Section TokenProperties.

Context `{Externals}.
Context {T L : Type}.
Variable lines_of : T -> list N.
Variable location_of : T -> L.
Variable lexeme_of : T -> Lexeme.

Lemma canonical_returns (token : Lexeme) :
  canonical token = true -> exists s, stringify_lexeme token = Ret (PyStr s).
Proof.
  destruct token as [kind text]. unfold canonical. cbn [name value].
  intros Hcanonical. apply andb_true_iff in Hcanonical as [Hin Hshape].
  apply in_alphabet_cases in Hin.
  destruct Hin as [-> | [-> | [-> | [-> | [-> | [-> | [-> | [-> | ->]]]]]]]];
    try (eexists; reflexivity).
  cbn [str_eqb py] in Hshape.
  assert (template_shaped text = true) as Hshaped by exact Hshape.
  rewrite (stringify_lexeme_method _ StringifyLexeme_Template) by reflexivity.
  cbn [value]. unfold template_shaped in Hshaped. unfold StringifyLexeme_Template.
  apply andb_true_iff in Hshaped as [Hrest Hend].
  apply andb_true_iff in Hrest as [Hlen Hstart].
  apply Nat.leb_le in Hlen.
  destruct (Nat.ltb_spec (length text) 2); [lia|].
  destruct (startswith text (py "`")), (startswith text (py "}")),
    (endswith text (py "`")), (endswith text (py "${"));
    try discriminate; eexists; reflexivity.
Qed.

(** X21: [vocabularize_tokens] yields one pair for each token, in order
    and with the token's own location, as long as the canonicalizer has a
    symbol for the token; at the first token it has none for, the
    generator stops with the exception, after the pairs of the tokens
    before it. *)
Theorem vocabularize_tokens_yields (good rest : list T) (bad : T) (e : exn) :
  forallb (fun token => canonical (lexeme_of token)) good = true ->
  let '(yielded, raised) := vocabularize_tokens location_of lexeme_of good in
  raised = None /\
  map fst yielded = map location_of good /\
  Forall2 (fun token pair => stringify_lexeme (lexeme_of token) = Ret pair.2) good yielded /\
  (stringify_lexeme (lexeme_of bad) = Raise e ->
   vocabularize_tokens location_of lexeme_of (good ++ bad :: rest) = (yielded, Some e)).
Proof.
  induction good as [|token good IH]; cbn [forallb vocabularize_tokens app map].
  - intros _. split; [reflexivity|]. split; [reflexivity|]. split; [constructor|].
    intros ->. reflexivity.
  - intros Hall. apply andb_true_iff in Hall as [Hone Hgood].
    destruct (canonical_returns _ Hone) as [s Hs]. rewrite Hs.
    specialize (IH Hgood).
    destruct (vocabularize_tokens location_of lexeme_of good) as [yielded raised].
    destruct IH as (Hnone & Hlocs & Hpairs & Hbad).
    split; [exact Hnone|]. cbn [map fst]. split; [f_equal; exact Hlocs|].
    split; [constructor; [exact Hs|exact Hpairs]|].
    intros Hraise. rewrite (Hbad Hraise). reflexivity.
Qed.

Lemma size_of_lines (entries : list N) :
  size (list_to_set entries : gset N) = length (remove_dups entries).
Proof.
  rewrite <- (size_list_to_set (C := gset N) (remove_dups entries))
    by apply NoDup_remove_dups.
  f_equal. apply set_eq. intros lineno.
  rewrite !elem_of_list_to_set, elem_of_remove_dups. reflexivity.
Qed.

(** X22: [summarize_tokens] counts every token, and each line once
    however many tokens stand on it: the lines of code are the distinct
    line numbers among the lines of the tokens.  The summary does not
    depend on the order of the tokens, and of no token at all both
    numbers are zero. *)
Theorem summarize_tokens_counts (tokens shuffled : list T) :
  n_tokens (summarize_tokens lines_of tokens) = length tokens /\
  sloc (summarize_tokens lines_of tokens)
  = length (remove_dups (concat (map lines_of tokens))) /\
  (tokens ≡ₚ shuffled ->
   summarize_tokens lines_of shuffled = summarize_tokens lines_of tokens) /\
  summarize_tokens lines_of [] = {| sloc := 0; n_tokens := 0 |}.
Proof.
  split; [reflexivity|]. split; [apply size_of_lines|]. split.
  - intros Hperm. unfold summarize_tokens. f_equal.
    + f_equal. apply set_eq. intros lineno. rewrite !elem_of_list_to_set.
      rewrite <- Hperm. reflexivity.
    + symmetry. apply Permutation_length. exact Hperm.
  - unfold summarize_tokens. cbn. rewrite size_empty. reflexivity.
Qed.

End TokenProperties.

(** ** The further properties at concrete inputs *)

Lemma process_success_witness :
  let w := one_source [] in
  (signals w = [] /\
   sources w !! py "ab" = Some (PyBytes []) /\
   parse_js (H := sample) (PyBytes []) = Ret (JArr [], JObj []) /\
   count_codepoints_in_literals (JArr []) = Ret ∅) /\
  exists w', process (H := sample) (py "ab") w = (Ret Continue, w') /\
             parsed w' !! py "ab" = Some (JArr [], JObj []) /\
             acknowledged w' = [py "ab"].
Proof.
  intros w.
  assert (sources w !! py "ab" = Some (PyBytes [])) as Hsrc by reflexivity.
  split; [repeat split; exact Hsrc|].
  destruct (process_success (H := sample) (py "ab") w (PyBytes []) (JArr []) (JObj []) ∅
              eq_refl Hsrc eq_refl eq_refl)
    as (w' & Hrun & Hparsed & _ & Hacked & _).
  exists w'. split; [exact Hrun|]. split; [exact Hparsed|exact Hacked].
Defined.

Lemma process_syntax_error_witness :
  let w := one_item [] in
  (signals w = [] /\
   sources w !! py "ab" = Some (PyBytes ["%"%byte; "$"%byte]) /\
   parse_js (H := sample) (PyBytes ["%"%byte; "$"%byte]) = Raise ParseError) /\
  exists w', process (H := sample) (py "ab") w = (Ret Continue, w') /\
             py "ab" ∈ failures w' /\ errors w' = errors w.
Proof.
  intros w.
  assert (sources w !! py "ab" = Some (PyBytes ["%"%byte; "$"%byte])) as Hsrc by reflexivity.
  split; [repeat split; exact Hsrc|].
  destruct (process_syntax_error (H := sample) (py "ab") w _ eq_refl Hsrc eq_refl)
    as (w' & Hrun & Hfailed & _ & Herrs & _).
  exists w'. split; [exact Hrun|]. split; [exact Hfailed|exact Herrs].
Defined.

Lemma process_fault_witness :
  let w := one_item [] in
  (signals w = [] /\ sources w !! py "zz" = None) /\
  exists w', process (H := sample) (py "zz") w = (Ret Continue, w') /\
             errors w' = [py "zz"] /\ acknowledged w' = [py "zz"].
Proof.
  intros w.
  assert (sources w !! py "zz" = None) as Hsrc by reflexivity.
  split; [split; [reflexivity|exact Hsrc]|].
  destruct (process_fault (H := sample) (py "zz") w eq_refl (or_introl Hsrc))
    as (w' & Hrun & Herrs & Hacked & _).
  exists w'. split; [exact Hrun|]. split; [exact Herrs|exact Hacked].
Defined.

Lemma process_profiler_fault_witness :
  let w := one_source ["v"%byte] in
  (signals w = [] /\
   sources w !! py "ab" = Some (PyBytes ["v"%byte]) /\
   parse_js (H := second_sample) (PyBytes ["v"%byte]) = Ret (JArr [short_literal], JNull) /\
   count_codepoints_in_literals (JArr [short_literal]) = Raise AssertionError) /\
  exists w', process (H := second_sample) (py "ab") w = (Ret Continue, w') /\
             parsed w' !! py "ab" = Some (JArr [short_literal], JNull) /\
             errors w' = [py "ab"].
Proof.
  intros w.
  assert (sources w !! py "ab" = Some (PyBytes ["v"%byte])) as Hsrc by reflexivity.
  split; [repeat split; exact Hsrc|].
  destruct (process_profiler_fault (H := second_sample) (py "ab") w (PyBytes ["v"%byte])
              (JArr [short_literal]) JNull AssertionError eq_refl Hsrc eq_refl eq_refl)
    as (w' & Hrun & Hparsed & Herrs & _).
  exists w'. split; [exact Hrun|]. split; [exact Hparsed|exact Herrs].
Defined.

Lemma undecodable_item_escapes_witness :
  (signals one_undecodable = [] /\
   queue one_undecodable = [[Byte.xff]] /\
   decode_utf8 (Externals := second_sample) [Byte.xff] = Raise UnicodeError) /\
  exists w', main (H := second_sample) one_undecodable = (Raise UnicodeError, w') /\
             queue w' = [] /\ errors w' = [] /\ acknowledged w' = [].
Proof.
  split; [repeat split|].
  destruct (undecodable_item_escapes (H := second_sample) one_undecodable
              [Byte.xff] [] UnicodeError eq_refl eq_refl eq_refl)
    as (w' & Hrun & Hqueue & Herrs & Hacked & _).
  exists w'. repeat split; assumption.
Defined.

Lemma interrupt_in_worker_get_witness :
  signals (one_item [Quiet; InterruptLate]) = [Quiet; InterruptLate] /\
  main (H := sample) (one_item [Quiet; InterruptLate])
  = (Ret Broke, record (Dequeued waiting_item) (set_queue [] (one_item []))).
Proof.
  split; [reflexivity|].
  exact (proj2 (interrupt_in_worker_get (H := sample) (one_item [Quiet; InterruptLate]))
           eq_refl).
Defined.

Lemma quiet_run_loses_nothing_witness :
  let w := one_item [] in
  (signals w = [] /\
   Forall (fun item => returns (decode_utf8 (Externals := sample) item) = true) (queue w)) /\
  exists r w', main (H := sample) w = (Ret r, w') /\
               accounted_for w' waiting_item (py "ab").
Proof.
  intros w.
  assert (Forall (fun item => returns (decode_utf8 (Externals := sample) item) = true)
                 (queue w)) as Hdecodes by (repeat constructor).
  split; [split; [reflexivity|exact Hdecodes]|].
  destruct (quiet_run_loses_nothing (H := sample) w eq_refl Hdecodes)
    as (r & w' & Hrun & _ & Hall).
  exists r, w'. split; [exact Hrun|].
  apply Hall; [apply list_elem_of_here|reflexivity].
Defined.

Lemma insert_count_adds_witness :
  let counts : counter := {[ py "U+0041" := 2%Z ]} in
  signals (one_item []) = [] /\
  exists w', insert_count counts (one_item []) = (Ret (), w') /\
             count_of (char_count w') (py "U+0041") = 2%Z.
Proof.
  intros counts. split; [reflexivity|].
  destruct (insert_count_adds counts ∅ (one_item []) eq_refl) as (w' & Hrun & Hadd & _).
  exists w'. split; [exact Hrun|]. rewrite Hadd. reflexivity.
Defined.

Lemma parse_error_iff_status_1_witness :
  ((forall s, encode_utf8 (Externals := sample) s <> Raise ParseError) /\
   (forall b, decode_utf8 (Externals := sample) b <> Raise ParseError) /\
   (forall text, json_loads (Externals := sample) text <> Raise ParseError)) /\
  (parse_js (H := sample) (PyBytes ["%"%byte]) = Raise ParseError <->
   exists contents, written (H := sample) (PyBytes ["%"%byte]) = Ret contents /\
                    returncode (node_parse_js (Externals := sample) contents) = 1%Z).
Proof.
  assert (forall s, encode_utf8 (Externals := sample) s <> Raise ParseError) as He
      by (intros s; discriminate).
  assert (forall b, decode_utf8 (Externals := sample) b <> Raise ParseError) as Hd
      by (intros b; discriminate).
  assert (forall text, json_loads (Externals := sample) text <> Raise ParseError) as Hl
      by (intros text; discriminate).
  split; [repeat split; assumption|].
  exact (parse_error_iff_status_1 (H := sample) (PyBytes ["%"%byte]) He Hd Hl).
Defined.

Lemma parse_js_payload_witness :
  (written (H := sample) (PyBytes []) = Ret [] /\
   returncode (node_parse_js (Externals := sample) []) = 0%Z /\
   decode_utf8 (Externals := sample) (stdout (node_parse_js (Externals := sample) [])) = Ret [] /\
   json_loads (Externals := sample) [] = Ret (JObj [(py "tokens", JArr []); (py "ast", JObj [])])) /\
  parse_js (H := sample) (PyBytes []) = Ret (JArr [], JObj []).
Proof.
  split; [repeat split|].
  exact (parse_js_payload (H := sample) (PyBytes []) [] []
           [(py "tokens", JArr []); (py "ast", JObj [])] eq_refl eq_refl eq_refl eq_refl).
Defined.

Lemma str_source_is_its_encoding_witness :
  encode_utf8 (Externals := sample) (py "%$") = Ret ["%"%byte; "$"%byte] /\
  tokenize (H := sample) (PyStr (py "%$")) one_stream
  = tokenize (H := sample) (PyBytes ["%"%byte; "$"%byte]) one_stream.
Proof.
  split; [reflexivity|].
  exact (proj1 (str_source_is_its_encoding (H := sample) (py "%$") ["%"%byte; "$"%byte]
                  one_stream eq_refl)).
Defined.

Lemma adapter_runs_parser_once_witness :
  (0 <> next_fd one_stream)%nat /\
  files (tokenize (H := sample) (PyBytes ["%"%byte]) one_stream).2 !! 0%nat
  = files one_stream !! 0%nat.
Proof.
  assert (0 <> next_fd one_stream)%nat as Hne by discriminate.
  split; [exact Hne|].
  pose proof (adapter_runs_parser_once (H := sample) ["%"%byte] one_stream) as Hrun.
  cbv zeta in Hrun. destruct Hrun as (_ & _ & _ & _ & Hfiles).
  exact (proj1 (Hfiles 0%nat Hne)).
Defined.

Lemma check_syntax_reports_status_witness :
  (returncode (esprima (Externals := second_sample) [] []) = 0%Z /\
   decode_utf8 (Externals := second_sample) (stdout (esprima (Externals := second_sample) [] []))
   = Ret [] /\
   json_loads (Externals := second_sample) [] = Ret (JArr [])) /\
  (tokenize (H := second_sample) (PyBytes []) one_stream).1 = Ret [].
Proof.
  split; [repeat split|].
  exact (proj1 (proj2 (check_syntax_reports_status (H := second_sample) [] one_stream)
                  [] [] eq_refl eq_refl eq_refl)).
Defined.

Lemma from_esprima_format_reads_witness :
  let fields := [(py "type", JStr (py "Keyword")); (py "range", JArr [JNum 0; JNum 4])] in
  assoc (py "loc") fields = None /\
  from_esprima_format (JObj fields) = Raise (KeyError (py "loc")).
Proof.
  intros fields. split; [reflexivity|].
  exact (proj1 (proj2 (proj2 (from_esprima_format_reads (JObj fields))))
           fields eq_refl eq_refl).
Defined.

Lemma vocabularize_tokens_yields_witness :
  let good := [ {| name := py "Keyword"; value := py "var" |};
                {| name := py "Identifier"; value := py "x" |} ] in
  let bad := {| name := py "Template"; value := py "ab" |} in
  forallb (fun token => canonical token) good = true /\
  vocabularize_tokens (H := sample) value (fun token => token) (good ++ [bad])
  = ([(py "var", PyStr (py "var")); (py "x", PyStr (py "<IDENTIFIER>"))],
     Some (TypeError (py "Unhandled template literal: ab"))).
Proof.
  intros good bad.
  assert (forallb (fun token => canonical token) good = true) as Hgood by reflexivity.
  split; [exact Hgood|].
  pose proof (vocabularize_tokens_yields (H := sample) value (fun token => token)
                good [] bad (TypeError (py "Unhandled template literal: ab")) Hgood) as Hrun.
  cbv beta iota zeta delta [vocabularize_tokens good] in Hrun.
  cbn in Hrun. destruct Hrun as (_ & _ & _ & Hbad). exact (Hbad eq_refl).
Defined.

Lemma summarize_tokens_counts_witness :
  let lines_of := fun token : N * N => [token.1; token.2] in
  [(1, 1); (1, 2)]%N ≡ₚ [(1, 2); (1, 1)]%N /\
  summarize_tokens lines_of [(1, 2); (1, 1)]%N = summarize_tokens lines_of [(1, 1); (1, 2)]%N.
Proof.
  intros lines_of.
  assert ([(1, 1); (1, 2)]%N ≡ₚ [(1, 2); (1, 1)]%N) as Hperm by apply perm_swap.
  split; [exact Hperm|].
  exact (proj1 (proj2 (proj2 (summarize_tokens_counts lines_of
                                 [(1, 1); (1, 2)]%N [(1, 2); (1, 1)]%N))) Hperm).
Defined.

(** C3 at the item of the queue, whose source is a syntax error. *)
Lemma acknowledged_once_after_persistence_witness :
  let w := one_item [] in
  (signals (attempt (H := sample) (py "ab") w).2 = [] /\
   (attempt (H := sample) (py "ab") w).1 = Raise ParseError) /\
  history (process (H := sample) (py "ab") w).2
  = [RecordedFailure (py "ab"); Acknowledged (py "ab")] /\
  py "ab" ∈ failures (process (H := sample) (py "ab") w).2.
Proof.
  intros w.
  assert (signals (attempt (H := sample) (py "ab") w).2 = []) as Hquiet by reflexivity.
  assert ((attempt (H := sample) (py "ab") w).1 = Raise ParseError) as Hparse by reflexivity.
  split; [split; assumption|].
  destruct (proj1 (proj2 (proj2 (proj2 (proj2
              (acknowledged_once_after_persistence (H := sample) w (py "ab"))))))
              Hquiet) as (Hhistory & Hfailed & _).
  split; [|exact (Hfailed Hparse)].
  rewrite Hhistory. reflexivity.
Defined.
